(** * udp-node: the message protocol and dispatch engine of [src/index.js]

    A shallow embedding of the [UdpNode] class.  JavaScript data is a small
    universe of values; the methods of the class are computations in a
    state-and-exception monad that also records, in order, every call the
    node makes to its collaborators (logger, socket, user callbacks).

    Conventions of the model
    - parameter types follow the JSDoc annotations of the source; where a
      method validates an argument itself ([on]), the argument is untyped;
    - numbers are integers, strings are sequences of 8-bit characters;
    - the [events] object is a finite map from its own keys, on top of the
      names every object inherits from [Object.prototype];
    - a callback of the user is a function identifier; what it does when
      the node calls it is given by a parameter, [body]: a computation on the
      node, so that a callback can throw and can act on the node while the
      node is calling it.  [inert] is the callback that returns at once;
    - a call of a collaborator (logger, socket) is recorded and taken to
      return; where a property is about what the socket then does, it says
      when the socket accepts the call, and when the text handed to it is
      the datagram;
    - [JSON.parse] and [JSON.stringify] belong to the platform: the node is
      parameterised by them, and the reference codec [RefJSON] implements
      them for the integer fragment of JSON. *)

From Stdlib Require Import ZArith String Ascii List Bool Lia.
From Stdlib Require Import Decimal DecimalFacts DecimalPos.
From stdpp Require Import base option list gmap strings.

Local Open Scope string_scope.
Local Open Scope list_scope.

(** ** JavaScript values *)

Unset Elimination Schemes.
Inductive value :=
| VUndef
| VNull
| VBool (b : bool)
| VNum (n : Z)
| VStr (s : string)
| VArr (l : list value)
| VObj (o : list (string * value)).
Set Elimination Schemes.

(** An object: its own properties, in insertion order. *)
Abbreviation obj := (list (string * value)).

(** The identity of a function object; what a function does when the node
    calls it is given by the parameter [body] of the methods. *)
Definition fn := nat.

(** An argument that may be a function (the [callback] of [on] and [send]). *)
Inductive jsarg :=
| Data (v : value)
| Fun (f : fn).

Inductive exn :=
| Error (msg : string)
| TypeError
| SyntaxError.

Inductive result (A : Type) :=
| Ok (a : A)
| Throw (e : exn).
Arguments Ok {A} a.
Arguments Throw {A} e.

Section value_induction.
Variable P : value -> Prop.
Hypothesis Hundef : P VUndef.
Hypothesis Hnull : P VNull.
Hypothesis Hbool : forall b, P (VBool b).
Hypothesis Hnum : forall n, P (VNum n).
Hypothesis Hstr : forall s, P (VStr s).
Hypothesis Harr : forall l, Forall P l -> P (VArr l).
Hypothesis Hobj : forall o, Forall (fun kv => P (snd kv)) o -> P (VObj o).

Fixpoint value_ind (v : value) : P v :=
  match v with
  | VUndef => Hundef
  | VNull => Hnull
  | VBool b => Hbool b
  | VNum n => Hnum n
  | VStr s => Hstr s
  | VArr l =>
      Harr l ((fix go (l : list value) : Forall P l :=
                 match l with
                 | [] => @List.Forall_nil _ P
                 | x :: l' => @List.Forall_cons _ P x l' (value_ind x) (go l')
                 end) l)
  | VObj o =>
      Hobj o ((fix go (o : obj) : Forall (fun kv => P (snd kv)) o :=
                 match o with
                 | [] => @List.Forall_nil _ _
                 | kv :: o' =>
                     @List.Forall_cons _ _ kv o' (value_ind (snd kv)) (go o')
                 end) o)
  end.
End value_induction.

(** *** Own properties *)

Fixpoint lookup_prop (k : string) (o : obj) : option value :=
  match o with
  | [] => None
  | (k', v) :: o' => if String.eqb k k' then Some v else lookup_prop k o'
  end.

(** [o[k]] for an object [o]: [undefined] when [k] is not a property. *)
Definition get_own (o : obj) (k : string) : value :=
  default VUndef (lookup_prop k o).

(** [o[k] = v]: an existing property keeps its place, a new one goes last. *)
Fixpoint set_prop (k : string) (v : value) (o : obj) : obj :=
  match o with
  | [] => [(k, v)]
  | (k', v') :: o' =>
      if String.eqb k k' then (k, v) :: o' else (k', v') :: set_prop k v o'
  end.

(** [Object.keys(o)] *)
Definition Object_keys (o : obj) : list string := map fst o.

(** *** Operators *)

(** [!!v] *)
Definition truthy (v : value) : bool :=
  match v with
  | VUndef | VNull => false
  | VBool b => b
  | VNum n => negb (n =? 0)%Z
  | VStr s => negb (String.eqb s "")
  | VArr _ | VObj _ => true
  end.

(** [a || b] *)
Definition js_or (a b : value) : value := if truthy a then a else b.

(** [a === b].  Arrays and objects compare by reference; the two sides of
    every comparison in the source come from different allocations (a freshly
    parsed message against the configuration), so they are never equal. *)
Definition strict_eq (a b : value) : bool :=
  match a, b with
  | VUndef, VUndef => true
  | VNull, VNull => true
  | VBool x, VBool y => Bool.eqb x y
  | VNum x, VNum y => (x =? y)%Z
  | VStr x, VStr y => String.eqb x y
  | _, _ => false
  end.

(** Decimal numerals, written in front of a continuation. *)
Fixpoint uint_str (d : uint) (k : string) : string :=
  match d with
  | Nil => k
  | D0 d => String "0" (uint_str d k)
  | D1 d => String "1" (uint_str d k)
  | D2 d => String "2" (uint_str d k)
  | D3 d => String "3" (uint_str d k)
  | D4 d => String "4" (uint_str d k)
  | D5 d => String "5" (uint_str d k)
  | D6 d => String "6" (uint_str d k)
  | D7 d => String "7" (uint_str d k)
  | D8 d => String "8" (uint_str d k)
  | D9 d => String "9" (uint_str d k)
  end.

Definition num_str (n : Z) (k : string) : string :=
  match n with
  | Z0 => String "0" k
  | Zpos p => uint_str (Pos.to_uint p) k
  | Zneg p => String "-" (uint_str (Pos.to_uint p) k)
  end.

(** [String(v)], the conversion behind property keys and
    [String.prototype.indexOf]. *)
Fixpoint to_string (v : value) : string :=
  match v with
  | VUndef => "undefined"
  | VNull => "null"
  | VBool true => "true"
  | VBool false => "false"
  | VNum n => num_str n ""
  | VStr s => s
  | VArr l =>
      (* [Array.prototype.join]: [null] and [undefined] print as nothing *)
      let elem x := match x with VUndef | VNull => "" | _ => to_string x end in
      (fix join (l : list value) : string :=
         match l with
         | [] => ""
         | [x] => elem x
         | x :: l' => elem x +:+ "," +:+ join l'
         end) l
  | VObj _ => "[object Object]"
  end.

(** [typeof a === 'function'] *)
Definition is_function (a : jsarg) : bool :=
  match a with
  | Fun _ => true
  | Data _ => false
  end.

(** [!!a] for an argument. *)
Definition truthy_arg (a : jsarg) : bool :=
  match a with
  | Fun _ => true
  | Data v => truthy v
  end.

(** [v[k]] for any value: reading a property of [undefined] or [null]
    throws; strings and arrays have a [length].  Of the other names the node
    reads ([type], [from], [filter], [length], [indexOf]) a primitive has
    none; an array inherits [filter] from [Array.prototype], which the
    universe of values has no function for: this matters only to
    [isNodeOfInterest] called on an array, which a message listener never
    does, since it calls it on a message whose [type] is a string. *)
Definition get (v : value) (k : string) : result value :=
  match v with
  | VUndef | VNull => Throw TypeError
  | VObj o => Ok (get_own o k)
  | VStr s =>
      Ok (if String.eqb k "length" then VNum (Z.of_nat (String.length s))
          else VUndef)
  | VArr l =>
      Ok (if String.eqb k "length" then VNum (Z.of_nat (length l)) else VUndef)
  | VBool _ | VNum _ => Ok VUndef
  end.

(** [Array.prototype.indexOf]: position of the first element [===] to [x]. *)
Fixpoint index_of (x : value) (l : list value) (i : Z) : Z :=
  match l with
  | [] => (-1)%Z
  | y :: l' => if strict_eq y x then i else index_of x l' (i + 1)%Z
  end.

(** Is [p] a prefix of [s]? *)
Fixpoint starts_with (p s : string) : bool :=
  match p, s with
  | EmptyString, _ => true
  | String a p', String b s' => Ascii.eqb a b && starts_with p' s'
  | String _ _, EmptyString => false
  end.

(** [String.prototype.indexOf]: position of the first occurrence of [p]. *)
Fixpoint find_substring (p s : string) (i : Z) : Z :=
  if starts_with p s then i
  else match s with
       | EmptyString => (-1)%Z
       | String _ s' => find_substring p s' (i + 1)%Z
       end.

(** [recv.indexOf(x)].  Arrays and strings inherit the method; on anything
    else parsed from JSON [recv.indexOf] is not a function. *)
Definition call_indexOf (recv x : value) : result value :=
  match recv with
  | VArr l => Ok (VNum (index_of x l 0))
  | VStr s => Ok (VNum (find_substring (to_string x) s 0))
  | _ => Throw TypeError
  end.

(** ** Collaborators and effects *)

(** The remote address information the socket hands over with a datagram. *)
Record rinfo := mk_rinfo { address : string; port : Z }.

(** One call from the node to a collaborator.  A log entry keeps the fixed
    part of its text. *)
Inductive effect :=
| logger_debug (what : string)
| logger_error (what : string)
| client_on (event : string)
| client_bind (port : value)
| client_send (msg : string) (offset length : Z) (port address : value)
    (callback : jsarg)
| client_close (callback : jsarg)
| call (f : fn) (message : value) (r : rinfo).

(** A computation over a state [S]: it returns or throws, leaves a state
    behind either way, and lists the effects it had, oldest first. *)
Definition M (S A : Type) : Type := S -> result A * S * list effect.

Definition ret {S A} (a : A) : M S A := fun s => (Ok a, s, []).

Definition throw {S A} (e : exn) : M S A := fun s => (Throw e, s, []).

Definition bind {S A B} (m : M S A) (k : A -> M S B) : M S B :=
  fun s =>
    match m s with
    | (Ok a, s1, t1) =>
        match k a s1 with
        | (r, s2, t2) => (r, s2, t1 ++ t2)
        end
    | (Throw e, s1, t1) => (Throw e, s1, t1)
    end.

Notation "x <- m ;; k" := (bind m (fun x => k))
  (at level 100, m at next level, right associativity).
Notation "m ;; k" := (bind m (fun _ => k))
  (at level 100, right associativity).

Definition emit {S} (e : effect) : M S unit := fun s => (Ok tt, s, [e]).

Definition read {S} : M S S := fun s => (Ok s, s, []).

Definition modify {S} (f : S -> S) : M S unit := fun s => (Ok tt, f s, []).

Definition lift {S A} (r : result A) : M S A := fun s => (r, s, []).

(** [try { m } catch (ex) { h ex }] *)
Definition try_catch {S A} (m : M S A) (h : exn -> M S A) : M S A :=
  fun s =>
    match m s with
    | (Ok a, s1, t1) => (Ok a, s1, t1)
    | (Throw e, s1, t1) =>
        match h e s1 with
        | (r, s2, t2) => (r, s2, t1 ++ t2)
        end
    end.

(** Run [m] on an object [x] the caller has just built and passes by
    reference; the object is dropped afterwards. *)
Definition with_local {S X A} (x : X) (m : M (S * X) A) : M S A :=
  fun s =>
    match m (s, x) with
    | (r, (s1, _), t) => (r, s1, t)
    end.

(** ** The node *)

Module DEFAULTS.
Definition PORT : Z := 3024.
Definition BROADCAST_ADDRESS : string := "255.255.255.255".
Definition NO_OP : fn := 0%nat.
End DEFAULTS.

Record UdpNode := mk_UdpNode {
  events : gmap string (list jsarg);
  config : obj;
  onNodeCallback : fn;
  isClosed : bool
}.

Definition with_events (f : gmap string (list jsarg) -> gmap string (list jsarg))
    (n : UdpNode) : UdpNode :=
  mk_UdpNode (f (events n)) (config n) (onNodeCallback n) (isClosed n).

Definition with_config (f : obj -> obj) (n : UdpNode) : UdpNode :=
  mk_UdpNode (events n) (f (config n)) (onNodeCallback n) (isClosed n).

Definition with_onNodeCallback (f : fn) (n : UdpNode) : UdpNode :=
  mk_UdpNode (events n) (config n) f (isClosed n).

Definition with_isClosed (b : bool) (n : UdpNode) : UdpNode :=
  mk_UdpNode (events n) (config n) (onNodeCallback n) b.

(** [constructor(logger)]; [uuid] is the identifier [uuid()] returns. *)
Definition constructor (uuid : string) : UdpNode :=
  mk_UdpNode ∅ [("id", VStr uuid)] DEFAULTS.NO_OP false.

(** The double quote, for the messages that quote a name. *)
Definition dq : string := String (ascii_of_nat 34) "".

Definition NOT_SET_UP : exn :=
  Error "Current node was not set up. Set it up using set({...}) before sending messages.".

Definition MISSING_TYPE : exn :=
  Error ("Missing property " +:+ dq +:+ "message.type" +:+ dq +:+
         " when calling send(message, callback).").

Definition MISSING_ADDRESS : exn :=
  Error "Required params for ping method: address".

Definition ON_MISSING_TYPE : exn :=
  Error ("Missing param " +:+ dq +:+ "type" +:+ dq +:+
         " when calling on(type, callback).").

Definition ON_MISSING_CALLBACK : exn :=
  Error ("Missing param " +:+ dq +:+ "callback" +:+ dq +:+
         " when calling on(type, callback).").

Definition ON_INVALID_CALLBACK : exn :=
  Error ("Invalid param " +:+ dq +:+ "callback" +:+ dq +:+
         " when calling on(type, callback). Must be a function.").

Definition OFF_MISSING_TYPE : exn :=
  Error ("Missing param " +:+ dq +:+ "type" +:+ dq +:+
         " when calling off(type, index).").

(** [Array.prototype.splice(index, 1)]: a negative [index] counts from the
    end; nothing is removed when the start is past the last element. *)
Definition splice1 {A} (l : list A) (index : Z) : list A :=
  let len := Z.of_nat (length l) in
  let start :=
    if (index <? 0)%Z then Z.max (len + index) 0 else Z.min index len in
  delete (Z.to_nat start) l.

Definition wasSetup (this : UdpNode) : bool :=
  (1 <? length (Object_keys (config this)))%nat.

(** The names every object inherits from [Object.prototype] (ECMAScript,
    Annex B included).  [this.events] is a plain object: read under one of
    these names it gives a function, or the prototype itself, which is
    truthy and has no [push], [map] or [splice]. *)
Definition Object_prototype : list string :=
  ["constructor"; "__defineGetter__"; "__defineSetter__"; "hasOwnProperty";
   "__lookupGetter__"; "__lookupSetter__"; "isPrototypeOf";
   "propertyIsEnumerable"; "toString"; "valueOf"; "__proto__";
   "toLocaleString"].

Definition inherited (name : string) : bool :=
  existsb (String.eqb name) Object_prototype.

(** [type in this.events]; a property key is the string of its value. *)
Definition isCustomEvent (this : UdpNode) (type : value) : bool :=
  bool_decide (is_Some (events this !! to_string type)) ||
  inherited (to_string type).

(** A callback that returns at once and leaves the node alone, as
    [DEFAULTS.NO_OP] does. *)
Definition inert : fn -> value -> rinfo -> M UdpNode unit :=
  fun _ _ _ => ret tt.

(** [toSimpleName()]: the label in front of every log line.  A template
    literal prints a value as [String] does. *)
Definition toSimpleName (this : UdpNode) : string :=
  to_string (get_own (config this) "name") +:+
  (if truthy (get_own (config this) "type")
   then " (" +:+ to_string (get_own (config this) "type") +:+ ")"
   else "").

Section Methods.
(** The platform's [JSON.stringify] and [JSON.parse]; the latter yields
    [None] where the platform throws a [SyntaxError]. *)
Variable JSON_stringify : value -> string.
Variable JSON_parse : string -> option value.
(** What the functions of the user do when they are called with a message
    and the sender's address information. *)
Variable body : fn -> value -> rinfo -> M UdpNode unit.

(** [set(config)].  The configuration is written and the listeners are
    registered before [client.bind] is called. *)
Definition set (config' : obj) : M UdpNode UdpNode :=
  emit (logger_debug "-- Setting configuration:") ;;
  modify (with_config (fun c =>
    set_prop "id" (js_or (get_own config' "id") (get_own c "id")) c)) ;;
  modify (with_config
    (set_prop "port" (js_or (get_own config' "port") (VNum DEFAULTS.PORT)))) ;;
  modify (with_config
    (set_prop "broadcastAddress"
       (js_or (get_own config' "broadcastAddress")
              (VStr DEFAULTS.BROADCAST_ADDRESS)))) ;;
  modify (with_config
    (set_prop "name" (js_or (get_own config' "name") VNull))) ;;
  emit (client_on "listening") ;;
  emit (client_on "message") ;;
  this <- read ;;
  emit (client_bind (get_own (config this) "port")) ;;
  ret this.

(** [send(message, callback)]; the state is the node together with the
    caller's [message] object, which [send] writes to.  The call of
    [client.send] has the text and the number of its characters among its
    arguments; see [client_accepts] for when the socket takes the call and
    [transmitted] for what it then puts on the wire. *)
Definition send (callback : jsarg) : M (UdpNode * obj) unit :=
  fun '(this, message) =>
    if negb (wasSetup this) then (Throw NOT_SET_UP, (this, message), [])
    else if negb (truthy (get_own message "type"))
    then (Throw MISSING_TYPE, (this, message), [])
    else
      let message := set_prop "from" (get_own (config this) "id") message in
      let message :=
        set_prop "port"
          (js_or (get_own message "port") (VNum DEFAULTS.PORT)) message in
      let message :=
        set_prop "address"
          (js_or (get_own message "address")
                 (VStr DEFAULTS.BROADCAST_ADDRESS)) message in
      let messageString := JSON_stringify (VObj message) in
      (Ok tt, (this, message),
       [client_send messageString 0
          (Z.of_nat (String.length messageString))
          (get_own message "port") (get_own message "address") callback]).

(** [broadcast(params)]; [None] is a call without argument. *)
Definition broadcast (params : option obj) : M UdpNode unit :=
  this <- read ;;
  if negb (wasSetup this) then throw NOT_SET_UP else
  let filter := from_option (fun p => get_own p "filter") VUndef params in
  let port := from_option (fun p => get_own p "port") VUndef params in
  let address := from_option (fun p => get_own p "address") VUndef params in
  let data := from_option (fun p => get_own p "data") VUndef params in
  emit (logger_debug "looking for nodes:") ;;
  let message :=
    [("type", VStr "broadcast");
     ("node", VObj (config this));
     ("filter", filter);
     ("data", data);
     ("port", js_or port (js_or (get_own (config this) "port")
                                (VNum DEFAULTS.PORT)));
     ("address", js_or address (get_own (config this) "broadcastAddress"))] in
  with_local message (send (Data VUndef)).

(** [ping({address, port, data = null})] *)
Definition ping (params : obj) : M UdpNode unit :=
  let address := get_own params "address" in
  let port := get_own params "port" in
  let data :=
    match get_own params "data" with
    | VUndef => VNull
    | d => d
    end in
  this <- read ;;
  if negb (wasSetup this) then throw NOT_SET_UP else
  if negb (truthy address) then throw MISSING_ADDRESS else
  let port := js_or port (VNum DEFAULTS.PORT) in
  emit (logger_debug "sending PING") ;;
  let message :=
    [("type", VStr "ping");
     ("node", VObj (config this));
     ("data", data);
     ("port", port);
     ("address", address)] in
  with_local message (send (Data VUndef)).

(** [pong(message, rinfo)] *)
Definition pong (message : value) (r : rinfo) : M UdpNode unit :=
  this <- read ;;
  let pongMessage :=
    [("type", VStr "pong");
     ("port", VNum (port r));
     ("address", VStr (address r));
     ("node", VObj (config this))] in
  with_local pongMessage (send (Data VUndef)).

(** [isNodeOfInterest(message)] *)
Definition isNodeOfInterest (message : value) : M UdpNode bool :=
  this <- read ;;
  from <- lift (get message "from") ;;
  if strict_eq from (get_own (config this) "id") then ret false else
  filter <- lift (get message "filter") ;;
  unfiltered <-
    (if negb (truthy filter) then ret true
     else len <- lift (get filter "length") ;; ret (negb (truthy len))) ;;
  if unfiltered : bool then ret true else
  if strict_eq (get_own (config this) "type") VUndef then ret true else
  i <- lift (call_indexOf filter (get_own (config this) "type")) ;;
  ret (negb (strict_eq i (VNum (-1)))).

(** [onNode(callback)].  The node does nothing with the slot but call it: a
    value that is no function ([onNode()] stores [undefined]) stands in the
    model as a function whose body throws a [TypeError] at once. *)
Definition onNode (callback : fn) : M UdpNode unit :=
  modify (with_onNodeCallback callback).

(** [f(message, rinfo)] for a function of the user: the call, then what the
    function does. *)
Definition invoke (f : fn) (message : value) (r : rinfo) : M UdpNode unit :=
  emit (call f message r) ;;
  body f message r.

(** [onPing(message, rinfo)] *)
Definition onPing (message : value) (r : rinfo) : M UdpNode unit :=
  interested <- isNodeOfInterest message ;;
  if negb interested then ret tt else
  emit (logger_debug "got PING:") ;;
  this <- read ;;
  invoke (onNodeCallback this) message r ;;
  pong message r.

(** [onBroadcast(message, rinfo)] *)
Definition onBroadcast (message : value) (r : rinfo) : M UdpNode unit :=
  interested <- isNodeOfInterest message ;;
  if negb interested then ret tt else
  emit (logger_debug "got BROADCAST:") ;;
  this <- read ;;
  invoke (onNodeCallback this) message r ;;
  pong message r.

(** [onPong(message, rinfo)] *)
Definition onPong (message : value) (r : rinfo) : M UdpNode unit :=
  emit (logger_debug "got PONG:") ;;
  this <- read ;;
  invoke (onNodeCallback this) message r.

(** The body of [this.events[type].map(...)]: call what is a function, in
    the order of the list as it is when the dispatch begins; a callback that
    throws ends it.  (A callback that changes the list of its own type while
    that list is being mapped is outside the model.) *)
Fixpoint call_each (l : list jsarg) (message : value) (r : rinfo)
    : M UdpNode unit :=
  match l with
  | [] => ret tt
  | Fun f :: l' => invoke f message r ;; call_each l' message r
  | Data _ :: l' => call_each l' message r
  end.

(** [onCustomEvent(type, message, rinfo)] *)
Definition onCustomEvent (type message : value) (r : rinfo) : M UdpNode unit :=
  emit (logger_debug ("got " +:+ to_string type +:+ ":")) ;;
  this <- read ;;
  match events this !! to_string type with
  | Some listeners => call_each listeners message r
  | None => throw TypeError
  end.

(** [on(type, callback)].  Under an inherited name [this.events[type]] is
    truthy, so no list is made, and [push] is not a function of what is
    there. *)
Definition on (type : string) (callback : jsarg) : M UdpNode unit :=
  if String.eqb type "" then throw ON_MISSING_TYPE else
  if negb (truthy_arg callback) then throw ON_MISSING_CALLBACK else
  if negb (is_function callback) then throw ON_INVALID_CALLBACK else
  modify (with_events (fun ev =>
    match ev !! type with
    | Some _ => ev
    | None => if inherited type then ev else <[type := []]> ev
    end)) ;;
  this <- read ;;
  match events this !! type with
  | Some listeners =>
      modify (with_events (<[type := listeners ++ [callback]]>))
  | None => throw TypeError
  end.

(** [off(type, index)]; [None] is an [index] left [undefined]. *)
Definition off (type : string) (index : option Z) : M UdpNode unit :=
  if String.eqb type "" then throw OFF_MISSING_TYPE else
  match index with
  | None => modify (with_events (delete type))
  | Some i =>
      this <- read ;;
      match events this !! type with
      | Some listeners =>
          modify (with_events (<[type := splice1 listeners i]>))
      | None => throw TypeError
      end
  end.

(** [close(callback)] *)
Definition close (callback : jsarg) : M UdpNode unit :=
  this <- read ;;
  if isClosed this then ret tt else
  modify (with_isClosed true) ;;
  emit (logger_debug "CLOSE") ;;
  emit (client_close callback).

(** The listener [set] registers for the socket's ['message'] event;
    [message] is the text of the datagram, [message.toString()].  The [try]
    block answers whether it returned from the listener. *)
Definition on_message (message : string) (r : rinfo) : M UdpNode unit :=
  returned <-
    try_catch
      (message <- lift (match JSON_parse message with
                        | Some v => Ok v
                        | None => Throw SyntaxError
                        end) ;;
       type <- lift (get message "type") ;;
       if strict_eq type (VStr "ping") then onPing message r ;; ret true else
       if strict_eq type (VStr "pong") then onPong message r ;; ret true else
       if strict_eq type (VStr "broadcast")
       then onBroadcast message r ;; ret true else
       this <- read ;;
       if isCustomEvent this type
       then onCustomEvent type message r ;; ret true
       else ret false)
      (fun ex =>
         emit (logger_error "could not parse client message") ;; ret false) ;;
  if returned : bool then ret tt
  else emit (logger_debug "got INVALID message:").

(** The socket delivers datagrams one at a time, in arrival order. *)
Fixpoint deliver (datagrams : list (string * rinfo)) : M UdpNode unit :=
  match datagrams with
  | [] => ret tt
  | (message, r) :: rest => on_message message r ;; deliver rest
  end.
End Methods.

Arguments send : simpl never.
Arguments pong : simpl never.
Arguments isNodeOfInterest : simpl never.
Arguments onPing : simpl never.
Arguments onBroadcast : simpl never.
Arguments onCustomEvent : simpl never.
Arguments invoke : simpl never.

(** ** What survives serialisation *)

(** The value [JSON.parse(JSON.stringify(v))] denotes: a property whose
    value is [undefined] is left out, an [undefined] array element becomes
    [null]; [None] where [JSON.stringify] yields no text at all. *)
Fixpoint to_json (v : value) : option value :=
  match v with
  | VUndef => None
  | VArr l => Some (VArr (map (fun x => default VNull (to_json x)) l))
  | VObj o =>
      Some (VObj ((fix props (o : obj) : obj :=
                     match o with
                     | [] => []
                     | (k, x) :: o' =>
                         match to_json x with
                         | Some j => (k, j) :: props o'
                         | None => props o'
                         end
                     end) o))
  | _ => Some v
  end.

(** A value as the language can build it: no object has a key twice. *)
Fixpoint wf_value (v : value) : Prop :=
  match v with
  | VArr l => (fix all (l : list value) : Prop :=
                 match l with
                 | [] => True
                 | x :: l' => wf_value x /\ all l'
                 end) l
  | VObj o => NoDup (map fst o) /\
              (fix all (o : obj) : Prop :=
                 match o with
                 | [] => True
                 | (_, x) :: o' => wf_value x /\ all o'
                 end) o
  | _ => True
  end.

(** ** A reference codec

    [JSON.stringify] and [JSON.parse] for the fragment of JSON the model's
    values cover: integer numerals and 8-bit characters. *)
Module RefJSON.

Definition dquote : ascii := ascii_of_nat 34.
Definition backslash : ascii := ascii_of_nat 92.

Definition hex_char (n : nat) : ascii :=
  if (n <? 10)%nat then ascii_of_nat (48 + n) else ascii_of_nat (87 + n).

(** One character of a string literal. *)
Definition escape_char (c : ascii) (k : string) : string :=
  let n := nat_of_ascii c in
  if Ascii.eqb c dquote then String backslash (String dquote k)
  else if Ascii.eqb c backslash then String backslash (String backslash k)
  else if (n =? 8)%nat then String backslash (String "b" k)
  else if (n =? 9)%nat then String backslash (String "t" k)
  else if (n =? 10)%nat then String backslash (String "n" k)
  else if (n =? 12)%nat then String backslash (String "f" k)
  else if (n =? 13)%nat then String backslash (String "r" k)
  else if (n <? 32)%nat
  then String backslash
         (String "u" (String "0" (String "0"
            (String (hex_char (n / 16)) (String (hex_char (n mod 16)) k)))))
  else String c k.

Fixpoint escape (s : string) (k : string) : string :=
  match s with
  | EmptyString => k
  | String c s' => escape_char c (escape s' k)
  end.

Definition quote (s : string) (k : string) : string :=
  String dquote (escape s (String dquote k)).

Section Sequences.
(** The writer of one value. *)
Variable write_value : value -> string -> string.

(** The elements of a non-empty array and the closing bracket. *)
Fixpoint write_elements (l : list value) (k : string) : string :=
  match l with
  | [] => String "]" k
  | [x] => write_value x (String "]" k)
  | x :: l' => write_value x (String "," (write_elements l' k))
  end.

(** The members of an object and the closing brace; a property whose
    value is [undefined] is not written. *)
Fixpoint write_members (first : bool) (o : obj) (k : string) : string :=
  match o with
  | [] => String "}" k
  | (_, VUndef) :: o' => write_members first o' k
  | (key, x) :: o' =>
      let text :=
        quote key (String ":" (write_value x (write_members false o' k))) in
      if first then text else String "," text
  end.
End Sequences.

(** The text of [v], written in front of [k].  ([JSON.stringify] gives no
text for [undefined] itself; the node only ever serialises objects.) *)
Fixpoint write (v : value) (k : string) : string :=
  match v with
  | VUndef | VNull => String "n" (String "u" (String "l" (String "l" k)))
  | VBool true => String "t" (String "r" (String "u" (String "e" k)))
  | VBool false =>
      String "f" (String "a" (String "l" (String "s" (String "e" k))))
  | VNum n => num_str n k
  | VStr s => quote s k
  | VArr l => String "[" (write_elements write l k)
  | VObj o => String "{" (write_members write true o k)
  end.

Definition stringify (v : value) : string := write v "".

Definition is_ws (c : ascii) : bool :=
  let n := nat_of_ascii c in
  (n =? 32)%nat || (n =? 9)%nat || (n =? 10)%nat || (n =? 13)%nat.

Fixpoint skip_ws (s : string) : string :=
  match s with
  | EmptyString => EmptyString
  | String c s' => if is_ws c then skip_ws s' else s
  end.

(** [strip p s]: what follows [p] in [s]. *)
Fixpoint strip (p s : string) : option string :=
  match p, s with
  | EmptyString, _ => Some s
  | String a p', String b s' => if Ascii.eqb a b then strip p' s' else None
  | String _ _, EmptyString => None
  end.

Definition hex_value (c : ascii) : option nat :=
  let n := nat_of_ascii c in
  if (48 <=? n)%nat && (n <=? 57)%nat then Some (n - 48)%nat
  else if (97 <=? n)%nat && (n <=? 102)%nat then Some (n - 87)%nat
  else if (65 <=? n)%nat && (n <=? 70)%nat then Some (n - 55)%nat
  else None.

(** The character a four-digit escape stands for, when it has eight bits. *)
Definition unicode_escape (a b c d : ascii) : option ascii :=
  match hex_value a, hex_value b, hex_value c, hex_value d with
  | Some 0%nat, Some 0%nat, Some h, Some l => Some (ascii_of_nat (16 * h + l))
  | _, _, _, _ => None
  end.

Definition simple_escape (e : ascii) : option ascii :=
  if Ascii.eqb e dquote then Some dquote
  else if Ascii.eqb e backslash then Some backslash
  else if Ascii.eqb e "/" then Some "/"%char
  else if Ascii.eqb e "b" then Some (ascii_of_nat 8)
  else if Ascii.eqb e "f" then Some (ascii_of_nat 12)
  else if Ascii.eqb e "n" then Some (ascii_of_nat 10)
  else if Ascii.eqb e "r" then Some (ascii_of_nat 13)
  else if Ascii.eqb e "t" then Some (ascii_of_nat 9)
  else None.

Definition cons_char (c : ascii) (p : string * string) : string * string :=
  (String c (fst p), snd p).

(** A string literal after its opening quote: the string and the rest. *)
Fixpoint read_string (s : string) : option (string * string) :=
  match s with
  | EmptyString => None
  | String c s' =>
      if Ascii.eqb c dquote then Some (EmptyString, s')
      else if Ascii.eqb c backslash then
        match s' with
        | EmptyString => None
        | String e s'' =>
            if Ascii.eqb e "u" then
              match s'' with
              | String a (String b (String c (String d rest))) =>
                  match unicode_escape a b c d with
                  | Some ch => cons_char ch <$> read_string rest
                  | None => None
                  end
              | _ => None
              end
            else
              match simple_escape e with
              | Some ch => cons_char ch <$> read_string s''
              | None => None
              end
        end
      else if (nat_of_ascii c <? 32)%nat then None
      else cons_char c <$> read_string s'
  end.

Definition digit (c : ascii) : option (uint -> uint) :=
  if Ascii.eqb c "0" then Some D0
  else if Ascii.eqb c "1" then Some D1
  else if Ascii.eqb c "2" then Some D2
  else if Ascii.eqb c "3" then Some D3
  else if Ascii.eqb c "4" then Some D4
  else if Ascii.eqb c "5" then Some D5
  else if Ascii.eqb c "6" then Some D6
  else if Ascii.eqb c "7" then Some D7
  else if Ascii.eqb c "8" then Some D8
  else if Ascii.eqb c "9" then Some D9
  else None.

Fixpoint read_digits (s : string) : uint * string :=
  match s with
  | EmptyString => (Nil, EmptyString)
  | String c s' =>
      match digit c with
      | Some D => (D (fst (read_digits s')), snd (read_digits s'))
      | None => (Nil, s)
      end
  end.

(** An unsigned integer numeral: a lone [0], or digits led by a non-zero. *)
Definition read_nat (s : string) : option (N * string) :=
  match s with
  | EmptyString => None
  | String c s' =>
      if Ascii.eqb c "0" then Some (0%N, s')
      else match digit c with
           | Some _ => Some (Pos.of_uint (fst (read_digits s)), snd (read_digits s))
           | None => None
           end
  end.

Definition read_number (s : string) : option (Z * string) :=
  match s with
  | EmptyString => None
  | String c s' =>
      if Ascii.eqb c "-" then
        match read_nat s' with
        | Some (n, rest) => Some ((- Z.of_N n)%Z, rest)
        | None => None
        end
      else
        match read_nat s with
        | Some (n, rest) => Some (Z.of_N n, rest)
        | None => None
        end
  end.

Fixpoint parse_value (fuel : nat) (s : string) : option (value * string) :=
  match fuel with
  | O => None
  | S fuel =>
      match skip_ws s with
      | EmptyString => None
      | String c rest =>
          if Ascii.eqb c "n" then pair VNull <$> strip "ull" rest
          else if Ascii.eqb c "t" then pair (VBool true) <$> strip "rue" rest
          else if Ascii.eqb c "f" then pair (VBool false) <$> strip "alse" rest
          else if Ascii.eqb c dquote
          then (fun p => (VStr (fst p), snd p)) <$> read_string rest
          else if Ascii.eqb c "[" then
            match skip_ws rest with
            | EmptyString => None
            | String c' rest' =>
                if Ascii.eqb c' "]" then Some (VArr [], rest')
                else (fun p => (VArr (fst p), snd p)) <$>
                       parse_elements fuel rest
            end
          else if Ascii.eqb c "{" then
            match skip_ws rest with
            | EmptyString => None
            | String c' rest' =>
                if Ascii.eqb c' "}" then Some (VObj [], rest')
                else (fun p => (VObj (fst p), snd p)) <$>
                       parse_members fuel [] rest
            end
          else (fun p => (VNum (fst p), snd p)) <$> read_number (String c rest)
      end
  end
with parse_elements (fuel : nat) (s : string) : option (list value * string) :=
  match fuel with
  | O => None
  | S fuel =>
      match parse_value fuel s with
      | None => None
      | Some (v, rest) =>
          match skip_ws rest with
          | EmptyString => None
          | String c rest' =>
              if Ascii.eqb c "," then
                (fun p => (v :: fst p, snd p)) <$> parse_elements fuel rest'
              else if Ascii.eqb c "]" then Some ([v], rest')
              else None
          end
      end
  end
with parse_members (fuel : nat) (acc : obj) (s : string)
    : option (obj * string) :=
  match fuel with
  | O => None
  | S fuel =>
      match skip_ws s with
      | EmptyString => None
      | String c rest =>
          if negb (Ascii.eqb c dquote) then None else
          match read_string rest with
          | None => None
          | Some (key, rest) =>
              match skip_ws rest with
              | EmptyString => None
              | String c rest =>
                  if negb (Ascii.eqb c ":") then None else
                  match parse_value fuel rest with
                  | None => None
                  | Some (v, rest) =>
                      match skip_ws rest with
                      | EmptyString => None
                      | String c rest' =>
                          if Ascii.eqb c "," then
                            parse_members fuel (set_prop key v acc) rest'
                          else if Ascii.eqb c "}"
                          then Some (set_prop key v acc, rest')
                          else None
                      end
                  end
              end
          end
      end
  end.

Definition parse (s : string) : option value :=
  match parse_value (S (String.length s)) s with
  | Some (v, rest) =>
      match skip_ws rest with
      | EmptyString => Some v
      | String _ _ => None
      end
  | None => None
  end.

End RefJSON.

(** ** Notions the properties are stated with *)

(** *** Operations *)

(** Every [close] in a row, each with its own callback. *)
Fixpoint close_all (callbacks : list jsarg) : M UdpNode unit :=
  match callbacks with
  | [] => ret tt
  | callback :: rest => close callback ;; close_all rest
  end.

(** What the owner of a node and its socket can ask of it. *)
Inductive operation :=
| op_set (config' : obj)
| op_broadcast (params : option obj)
| op_ping (params : obj)
| op_send (message : obj) (callback : jsarg)
| op_onNode (callback : fn)
| op_on (type : string) (callback : jsarg)
| op_off (type : string) (index : option Z)
| op_close (callback : jsarg)
| op_datagram (message : string) (r : rinfo).

Section Operations.
Variable JSON_stringify : value -> string.
Variable JSON_parse : string -> option value.
Variable body : fn -> value -> rinfo -> M UdpNode unit.

(** The method, or the listener, behind an operation. *)
Definition perform (op : operation) : M UdpNode unit :=
  match op with
  | op_set config' => set config' ;; ret tt
  | op_broadcast params => broadcast JSON_stringify params
  | op_ping params => ping JSON_stringify params
  | op_send message callback =>
      with_local message (send JSON_stringify callback)
  | op_onNode callback => onNode callback
  | op_on type callback => on type callback
  | op_off type index => off type index
  | op_close callback => close callback
  | op_datagram message r =>
      on_message JSON_stringify JSON_parse body message r
  end.

(** One operation after the other; the caller goes on after one that threw. *)
Fixpoint perform_all (ops : list operation) : M UdpNode unit :=
  match ops with
  | [] => ret tt
  | op :: rest =>
      try_catch (perform op) (fun _ => ret tt) ;; perform_all rest
  end.
End Operations.

(** Is the effect a call of [client.close]? *)
Definition is_close (e : effect) : bool :=
  match e with
  | client_close _ => true
  | _ => false
  end.

(** A computation that, begun in a closed state, ends in one and does not
    close the socket. *)
Definition quiet {S A} (closed : S -> bool) (m : M S A) : Prop :=
  forall s, closed s = true ->
    closed (snd (fst (m s))) = true /\
    forallb (fun e => negb (is_close e)) (snd (m s)) = true.

(** *** Sending and answering *)

(** The message [send] leaves behind in the caller's object. *)
Definition stamped (this : UdpNode) (message : obj) : obj :=
  let message := set_prop "from" (get_own (config this) "id") message in
  let message :=
    set_prop "port" (js_or (get_own message "port") (VNum DEFAULTS.PORT))
      message in
  set_prop "address"
    (js_or (get_own message "address") (VStr DEFAULTS.BROADCAST_ADDRESS))
    message.

(** A datagram the listener cannot decode: [JSON.parse] throws on it, or
    gives [null], on which reading [message.type] throws. *)
Definition undecodable (JSON_parse : string -> option value)
    (message : string) : Prop :=
  match JSON_parse message with
  | None => True
  | Some v => get v "type" = Throw TypeError
  end.

(** The two log entries of a datagram that could not be decoded. *)
Definition parse_failure_log : list effect :=
  [logger_error "could not parse client message";
   logger_debug "got INVALID message:"].

(** The envelope [pong] sends, once [send] has stamped it. *)
Definition pong_envelope (this : UdpNode) (r : rinfo) : obj :=
  [("type", VStr "pong");
   ("port", VNum (port r));
   ("address", VStr (address r));
   ("node", VObj (config this));
   ("from", get_own (config this) "id")].

(** The call of [client.send] that transmits it to the sender. *)
Definition pong_datagram (JSON_stringify : value -> string) (this : UdpNode)
    (r : rinfo) : effect :=
  let messageString := JSON_stringify (VObj (pong_envelope this r)) in
  client_send messageString 0 (Z.of_nat (String.length messageString))
    (VNum (port r)) (VStr (address r)) (Data VUndef).

(** *** Custom events *)

(** The functions among the listeners, in their order. *)
Fixpoint functions (l : list jsarg) : list fn :=
  match l with
  | [] => []
  | Fun f :: l' => f :: functions l'
  | Data _ :: l' => functions l'
  end.

(** A type the listener handles itself. *)
Definition is_builtin (type : value) : bool :=
  strict_eq type (VStr "ping") || strict_eq type (VStr "pong") ||
  strict_eq type (VStr "broadcast").

(** *** The interest filter *)

(** An absent filter, or a list of roles, as it arrives in a message. *)
Definition filter_value (filter : option (list string)) : value :=
  match filter with
  | None => VUndef
  | Some roles => VArr (map VStr roles)
  end.

(** The role [isNodeOfInterest] reads from [this.config.type]. *)
Definition role_value (role : option string) : value :=
  match role with
  | None => VUndef
  | Some r => VStr r
  end.

(** The four rules, first match decides. *)
Definition interest_rules (from id : value) (filter : option (list string))
    (role : option string) : bool :=
  if strict_eq from id then false
  else match filter with
       | None | Some [] => true
       | Some roles =>
           match role with
           | None => true
           | Some r => bool_decide (r ∈ roles)
           end
       end.

(** *** Configuration *)

(** The configuration [set] leaves behind. *)
Definition configured (config' : obj) (c : obj) : obj :=
  let c := set_prop "id" (js_or (get_own config' "id") (get_own c "id")) c in
  let c :=
    set_prop "port" (js_or (get_own config' "port") (VNum DEFAULTS.PORT)) c in
  let c :=
    set_prop "broadcastAddress"
      (js_or (get_own config' "broadcastAddress")
             (VStr DEFAULTS.BROADCAST_ADDRESS)) c in
  set_prop "name" (js_or (get_own config' "name") VNull) c.

(** The configurations a node can have: it is born by [constructor] and
    changes its configuration only in [set]. *)
Inductive reachable_config : obj -> Prop :=
| reach_constructor uuid : reachable_config (config (constructor uuid))
| reach_set config' c :
    reachable_config c -> reachable_config (configured config' c).

(** *** Serialisation *)

(** The properties of an object that survive serialisation. *)
Fixpoint json_props (o : obj) : obj :=
  match o with
  | [] => []
  | (k, x) :: o' =>
      match to_json x with
      | Some j => (k, j) :: json_props o'
      | None => json_props o'
      end
  end.


(** A value without [undefined] in it. *)
Fixpoint is_json (v : value) : bool :=
  match v with
  | VUndef => false
  | VArr l => forallb is_json l
  | VObj o => forallb (fun kv => is_json (snd kv)) o
  | _ => true
  end.

(** The calls [RefJSON.parse_value] needs for a value, one inside the other. *)
Fixpoint value_size (v : value) : nat :=
  match v with
  | VArr l => S (list_sum (map (fun x => S (value_size x)) l))
  | VObj o => S (list_sum (map (fun kv => S (value_size (snd kv))) o))
  | _ => 1
  end.

(** A continuation a numeral can stand in front of. *)
Definition follow_ok (k : string) : Prop :=
  match k with
  | EmptyString => True
  | String c _ => RefJSON.digit c = None
  end.

(** A character a numeral can begin with. *)
Definition is_num_start (c : ascii) : bool :=
  match RefJSON.digit c with
  | Some _ => true
  | None => Ascii.eqb c "-"
  end.

(** A character a value can begin with. *)
Definition is_value_start (c : ascii) : bool :=
  negb (RefJSON.is_ws c) && negb (Ascii.eqb c "]") && negb (Ascii.eqb c "}").

(** What the induction gives for one value. *)
Definition reads_back (j : value) : Prop :=
  is_json j = true -> wf_value j ->
  forall k f, follow_ok k -> (value_size j <= f)%nat ->
              RefJSON.parse_value f (RefJSON.write j k) = Some (j, k).

(** *** The socket and the wire *)

(** A character that UTF-8 writes as one byte. *)
Definition is_ascii (c : ascii) : bool := (nat_of_ascii c <? 128)%nat.

Fixpoint ascii_only (s : string) : bool :=
  match s with
  | EmptyString => true
  | String c s' => is_ascii c && ascii_only s'
  end.

(** [Buffer.from(s)]: the UTF-8 encoding, byte by byte, of a string whose
    code units are below 256. *)
Fixpoint utf8 (s : string) : string :=
  match s with
  | EmptyString => EmptyString
  | String c s' =>
      if is_ascii c then String c (utf8 s')
      else String (ascii_of_nat (192 + nat_of_ascii c / 64))
             (String (ascii_of_nat (128 + nat_of_ascii c mod 64)) (utf8 s'))
  end.

Fixpoint first_bytes (n : nat) (s : string) : string :=
  match n, s with
  | S n', String c s' => String c (first_bytes n' s')
  | _, _ => EmptyString
  end.

Fixpoint skip_bytes (n : nat) (s : string) : string :=
  match n, s with
  | S n', String _ s' => skip_bytes n' s'
  | _, _ => s
  end.

(** What [client.send(msg, offset, length, ...)] puts on the wire: [length]
    bytes of the encoding of [msg], from [offset] on.  The source gives the
    length of [msg] in code units for [length]. *)
Definition transmitted (msg : string) (offset length : Z) : string :=
  first_bytes (Z.to_nat length) (skip_bytes (Z.to_nat offset) (utf8 msg)).

(** A port [client.send] takes. *)
Definition valid_port (v : value) : bool :=
  match v with
  | VNum p => (0 <? p)%Z && (p <? 65536)%Z
  | _ => false
  end.

Definition is_string (v : value) : bool :=
  match v with
  | VStr _ => true
  | _ => false
  end.

(** When [client.send] returns rather than throws: the socket has not been
    closed, the port is one, the address is a string. *)
Definition client_accepts (this : UdpNode) (port address : value) : bool :=
  negb (isClosed this) && valid_port port && is_string address.

(** *** What a computation leaves alone *)

(** A computation that ends with the part [view] of the state as it found
    it. *)
Definition keeps {S T A} (view : S -> T) (m : M S A) : Prop :=
  forall s, view (snd (fst (m s))) = view s.

(** A computation that ends in a state where [I] holds, begun in one. *)
Definition preserves {S A} (I : S -> Prop) (m : M S A) : Prop :=
  forall s, I s -> I (snd (fst (m s))).

(** A computation all of whose effects satisfy [p]. *)
Definition only {S A} (p : effect -> bool) (m : M S A) : Prop :=
  forall s, forallb p (snd (m s)) = true.

(** Is the effect a call of [client.send]? *)
Definition is_send (e : effect) : bool :=
  match e with
  | client_send _ _ _ _ _ _ => true
  | _ => false
  end.

Definition is_silent (e : effect) : bool := negb (is_send e).

(** The datagrams among the effects. *)
Definition sends (t : list effect) : nat := length (List.filter is_send t).

(** A computation that sends one datagram at most. *)
Definition one_send {S A} (m : M S A) : Prop :=
  forall s, (sends (snd (m s)) <= 1)%nat.

(** What the listener may do: write to the log, call a callback of the
    user, send a datagram. *)
Definition is_dispatch_effect (e : effect) : bool :=
  match e with
  | logger_debug _ | logger_error _ | call _ _ _
  | client_send _ _ _ _ _ _ => true
  | client_on _ | client_bind _ | client_close _ => false
  end.

(** A value [===] compares by what it is, not by where it is stored. *)
Definition by_value (v : value) : bool :=
  match v with
  | VArr _ | VObj _ => false
  | _ => true
  end.

(** A computation that neither reads nor writes the registry of listeners:
    it leaves the node as it is, and does the same on the node with the
    registry changed by [g]. *)
Definition ignores_events {A}
    (g : gmap string (list jsarg) -> gmap string (list jsarg))
    (m : M UdpNode A) : Prop :=
  forall this, exists res t,
    m this = (res, this, t) /\
    m (with_events g this) = (res, with_events g this, t).

(** A registry as [on] builds it: no listeners under the empty name, and
    nothing but functions in the lists. *)
Definition holds_functions (this : UdpNode) : Prop :=
  forall type l, events this !! type = Some l ->
    type ≠ "" /\ Forall (fun a => is_function a = true) l.

(** The effects of each datagram, handled by a node in state [this]. *)
Definition handled (JSON_stringify : value -> string)
    (JSON_parse : string -> option value)
    (body : fn -> value -> rinfo -> M UdpNode unit) (this : UdpNode)
    (datagrams : list (string * rinfo)) : list effect :=
  concat (map (fun d => snd (on_message JSON_stringify JSON_parse body
                               (fst d) (snd d) this)) datagrams).

(** The keys of the configuration of a node that was set up. *)
Definition configured_keys : list string :=
  ["id"; "port"; "broadcastAddress"; "name"].

(** *** Two nodes on one network *)

(** [new UdpNode().set({name: 'node1', type: 'r1', port: 3025})] *)
Definition nodeA : UdpNode :=
  with_config
    (configured [("name", VStr "node1"); ("type", VStr "r1");
                 ("port", VNum 3025)])
    (constructor "id-A").

(** [new UdpNode().set({name: 'node2', type: 'r2', role: 'r2'})] *)
Definition nodeB : UdpNode :=
  with_config
    (configured [("name", VStr "node2"); ("type", VStr "r2");
                 ("role", VStr "r2")])
    (constructor "id-B").

(** The message of [nodeA.broadcast({filter: ['r1'], port: 3024})]. *)
Definition broadcast_r1 : obj :=
  [("type", VStr "broadcast");
   ("node", VObj (config nodeA));
   ("filter", VArr [VStr "r1"]);
   ("data", VUndef);
   ("port", VNum 3024);
   ("address", VStr "255.255.255.255")].

(** Where [nodeB] sees the datagrams of [nodeA] come from. *)
Definition from_nodeA : rinfo := mk_rinfo "10.0.0.1" 3025.

(** The message of [send({type: 'hello', port: 3024, text: 'hey'})]. *)
Definition hello : obj :=
  [("type", VStr "hello"); ("port", VNum 3024); ("text", VStr "hey")].

(** A node with two listeners for ['hello']. *)
Definition listening : UdpNode :=
  with_events (<["hello" := [Fun 1%nat; Fun 2%nat]]>) nodeB.

(** A direct probe of [nodeB] by [nodeA]. *)
Definition ping_B : obj :=
  [("type", VStr "ping");
   ("node", VObj (config nodeA));
   ("data", VNull);
   ("port", VNum 3024);
   ("address", VStr "10.0.0.2")].

(** The answer of [nodeB], as it reaches [nodeA]. *)
Definition pong_B : value := VObj (pong_envelope nodeB from_nodeA).

(** The ['hello'] of [nodeA], as [JSON.parse] gives it to the listener. *)
Definition hello_A : value := VObj (json_props (stamped nodeA hello)).

(** Functions of a user: [7] thanks the sender with a message of its own,
    [8] closes the node, [9] throws, as a slot does that holds no function;
    every other one returns at once. *)
Definition handlers (JSON_stringify : value -> string)
    : fn -> value -> rinfo -> M UdpNode unit :=
  fun f message r =>
    match f with
    | 7%nat =>
        with_local
          [("type", VStr "thanks"); ("port", VNum (port r));
           ("address", VStr (address r))]
          (send JSON_stringify (Data VUndef))
    | 8%nat => close (Data VUndef)
    | 9%nat => throw TypeError
    | _ => ret tt
    end.

(** [nodeB] as it would be, had [set] kept the role. *)
Definition nodeB_r2 : UdpNode :=
  with_config (set_prop "type" (VStr "r2")) nodeB.

(** * Properties *)

(** ** Objects *)

Lemma lookup_set_prop_eq k v o : lookup_prop k (set_prop k v o) = Some v.
Proof.
  induction o as [|[k' v'] o IH]; simpl.
  - by rewrite String.eqb_refl.
  - destruct (String.eqb k k') eqn:E; simpl; rewrite ?String.eqb_refl, ?E; done.
Qed.

Lemma lookup_set_prop_ne k k' v o :
  k ≠ k' -> lookup_prop k' (set_prop k v o) = lookup_prop k' o.
Proof.
  intros Hne. induction o as [|[k1 v1] o IH]; simpl.
  - destruct (String.eqb_spec k' k); congruence.
  - destruct (String.eqb_spec k k1) as [->|]; simpl.
    + destruct (String.eqb_spec k' k1); congruence.
    + by rewrite IH.
Qed.

Lemma get_set_prop_eq k v o : get_own (set_prop k v o) k = v.
Proof. unfold get_own. by rewrite lookup_set_prop_eq. Qed.

Lemma get_set_prop_ne k k' v o :
  k ≠ k' -> get_own (set_prop k v o) k' = get_own o k'.
Proof. intros. unfold get_own. by rewrite lookup_set_prop_ne. Qed.

Lemma lookup_prop_Some_elem k v o : lookup_prop k o = Some v -> k ∈ map fst o.
Proof.
  induction o as [|[k' v'] o IH]; simpl; [done|].
  destruct (String.eqb_spec k k') as [->|]; intros; [left|right; auto].
Qed.

Lemma lookup_prop_None k o : k ∉ map fst o -> lookup_prop k o = None.
Proof.
  induction o as [|[k' v'] o IH]; simpl; [done|].
  intros Hn. destruct (String.eqb_spec k k') as [->|].
  - exfalso. apply Hn. left.
  - apply IH. intros ?. apply Hn. by right.
Qed.

Lemma set_prop_keys_fresh k v o :
  k ∉ map fst o -> set_prop k v o = o ++ [(k, v)].
Proof.
  induction o as [|[k' v'] o IH]; simpl; [done|].
  intros Hn. destruct (String.eqb_spec k k') as [->|].
  - exfalso. apply Hn. left.
  - f_equal. apply IH. intros ?. apply Hn. by right.
Qed.

Lemma set_prop_keys_mem k v o :
  k ∈ map fst o -> map fst (set_prop k v o) = map fst o.
Proof.
  induction o as [|[k' v'] o IH]; simpl.
  - by intros ?%elem_of_nil.
  - intros Hin. destruct (String.eqb_spec k k') as [->|]; simpl; [done|].
    f_equal. apply IH. apply elem_of_cons in Hin as [|]; done.
Qed.

Lemma set_prop_keys k v o :
  map fst (set_prop k v o) =
  if bool_decide (k ∈ map fst o) then map fst o else map fst o ++ [k].
Proof.
  case_bool_decide.
  - by apply set_prop_keys_mem.
  - rewrite set_prop_keys_fresh by done. by rewrite map_app.
Qed.

Lemma set_prop_NoDup k v o : NoDup (map fst o) -> NoDup (map fst (set_prop k v o)).
Proof.
  intros Hnd. rewrite set_prop_keys. case_bool_decide; [done|].
  apply NoDup_app. split_and!; [done| |apply NoDup_singleton].
  intros x Hx ->%list_elem_of_singleton. done.
Qed.

Lemma two_props_length k1 k2 v1 v2 (o : obj) :
  k1 ≠ k2 -> lookup_prop k1 o = Some v1 -> lookup_prop k2 o = Some v2 ->
  (1 < length o)%nat.
Proof.
  destruct o as [|[ka va] [|[kb vb] o]]; simpl; [done| |lia].
  destruct (String.eqb_spec k1 ka), (String.eqb_spec k2 ka); congruence.
Qed.

(** ** Arrays *)


Lemma splice1_past_end {A} (l : list A) (i : Z) :
  (Z.of_nat (length l) <= i)%Z -> splice1 l i = l.
Proof.
  intros Hi. unfold splice1.
  destruct (Z.ltb_spec i 0); [lia|].
  rewrite Z.min_r by lia. rewrite Nat2Z.id.
  induction l; simpl; [done|]. f_equal. apply IHl. simpl in Hi. lia.
Qed.

Lemma splice1_from_end {A} (l : list A) (i : Z) :
  (- Z.of_nat (length l) <= i < 0)%Z ->
  splice1 l i = delete (Z.to_nat (Z.of_nat (length l) + i)) l.
Proof.
  intros Hi. unfold splice1.
  destruct (Z.ltb_spec i 0); [|lia]. f_equal. lia.
Qed.

(** ** The wire *)

Lemma utf8_ascii s : ascii_only s = true -> utf8 s = s.
Proof.
  induction s as [|c s IH]; simpl; [done|].
  intros [Hc Hs]%andb_prop. rewrite Hc. by rewrite IH.
Qed.

Lemma first_bytes_all s : first_bytes (String.length s) s = s.
Proof. induction s as [|c s IH]; simpl; [done|]. by rewrite IH. Qed.



(** An ASCII text is its own datagram. *)
Lemma transmitted_ascii text :
  ascii_only text = true ->
  transmitted text 0 (Z.of_nat (String.length text)) = text.
Proof.
  intros H. unfold transmitted. rewrite utf8_ascii by done. simpl.
  rewrite Nat2Z.id. apply first_bytes_all.
Qed.


(** ** Closing *)

Lemma close_closed callback this :
  isClosed this = true -> close callback this = (Ok tt, this, []).
Proof. intros H. unfold close, bind, read. simpl. by rewrite H. Qed.

Lemma close_open callback this :
  isClosed this = false ->
  close callback this =
  (Ok tt, with_isClosed true this, [logger_debug "CLOSE"; client_close callback]).
Proof. intros H. unfold close, bind, read. simpl. by rewrite H. Qed.

Lemma close_all_closed callbacks this :
  isClosed this = true -> close_all callbacks this = (Ok tt, this, []).
Proof.
  intros H. induction callbacks as [|c cs IH]; [done|].
  simpl. unfold bind. by rewrite close_closed, IH.
Qed.

(** ** Errors of the sending operations *)

Section Sending.
Variable JSON_stringify : value -> string.

Lemma send_not_set_up callback this message :
  wasSetup this = false ->
  send JSON_stringify callback (this, message) =
  (Throw NOT_SET_UP, (this, message), []).
Proof. intros H. unfold send. by rewrite H. Qed.

Lemma send_missing_type callback this message :
  wasSetup this = true -> truthy (get_own message "type") = false ->
  send JSON_stringify callback (this, message) =
  (Throw MISSING_TYPE, (this, message), []).
Proof. intros H1 H2. unfold send. by rewrite H1, H2. Qed.

Lemma send_ok callback this message :
  wasSetup this = true -> truthy (get_own message "type") = true ->
  send JSON_stringify callback (this, message) =
  (Ok tt, (this, stamped this message),
   [client_send (JSON_stringify (VObj (stamped this message))) 0
      (Z.of_nat (String.length (JSON_stringify (VObj (stamped this message)))))
      (get_own (stamped this message) "port")
      (get_own (stamped this message) "address") callback]).
Proof. intros H1 H2. unfold send. by rewrite H1, H2. Qed.

(** C4.  Before [set], [ping], [broadcast] and [send] throw the
    not-set-up error; on a node that was set up, [ping] without an address
    throws the missing-address error and [send] without a type the
    missing-type error.  Each of them throws before anything else happens:
    no collaborator is called, the node is unchanged and so is the caller's
    message. *)
Theorem C4_send_errors (this : UdpNode) (params : obj)
    (bparams : option obj) (message : obj) (callback : jsarg) :
  (wasSetup this = false ->
     ping JSON_stringify params this = (Throw NOT_SET_UP, this, []) /\
     broadcast JSON_stringify bparams this = (Throw NOT_SET_UP, this, []) /\
     send JSON_stringify callback (this, message) =
       (Throw NOT_SET_UP, (this, message), [])) /\
  (wasSetup this = true ->
     (truthy (get_own params "address") = false ->
        ping JSON_stringify params this = (Throw MISSING_ADDRESS, this, [])) /\
     (truthy (get_own message "type") = false ->
        send JSON_stringify callback (this, message) =
          (Throw MISSING_TYPE, (this, message), []))).
Proof.
  split.
  - intros H. split_and!.
    + unfold ping, bind, read, throw. simpl. by rewrite H.
    + unfold broadcast, bind, read, throw. simpl. by rewrite H.
    + by apply send_not_set_up.
  - intros H. split.
    + intros Ha. unfold ping, bind, read, throw. simpl. by rewrite H, Ha.
    + by apply send_missing_type.
Qed.
End Sending.

(** ** The registry of custom events *)

(** C10, as the code has it.  [off(type, index)] with an index, for a
    non-empty [type] that has no entry in [events] (never registered, or
    removed by an earlier [off(type)]), throws a [TypeError] and changes
    nothing. *)
Theorem C10_off_index_unregistered (this : UdpNode) (type : string) (i : Z) :
  type ≠ "" ->
  (events this !! type = None ->
     off type (Some i) this = (Throw TypeError, this, [])) /\
  (forall this1, this1 = snd (fst (off type None this)) ->
     off type (Some i) this1 = (Throw TypeError, this1, [])).
Proof.
  intros Hne.
  assert (Hoff : forall n, events n !! type = None ->
                   off type (Some i) n = (Throw TypeError, n, [])).
  { intros n Hn. unfold off. destruct (String.eqb_spec type ""); [done|].
    unfold bind, read. simpl. by rewrite Hn. }
  split; [apply Hoff|].
  intros this1 ->. apply Hoff. unfold off.
  destruct (String.eqb_spec type ""); [done|].
  simpl. apply lookup_delete_eq.
Qed.

(** The empty string has no entry either, yet [off] with an index reports
    the missing [type], not a [TypeError]. *)
Lemma C10_counterexample :
  events (constructor "id") !! "" = None /\
  off "" (Some 0%Z) (constructor "id") =
    (Throw OFF_MISSING_TYPE, constructor "id", []) /\
  OFF_MISSING_TYPE ≠ TypeError.
Proof. split_and!; done. Qed.

(** ** The dispatcher *)

Section Dispatch.
Variable JSON_stringify : value -> string.
Variable JSON_parse : string -> option value.
Variable body : fn -> value -> rinfo -> M UdpNode unit.

Local Abbreviation on_message := (on_message JSON_stringify JSON_parse body).
Local Abbreviation deliver := (deliver JSON_stringify JSON_parse body).
Local Abbreviation onPing := (onPing JSON_stringify body).
Local Abbreviation onBroadcast := (onBroadcast JSON_stringify body).
Local Abbreviation onPong := (onPong body).
Local Abbreviation invoke := (invoke body).
Local Abbreviation pong := (pong JSON_stringify).
Local Abbreviation pong_datagram := (pong_datagram JSON_stringify).

Lemma on_message_undecodable message r this :
  undecodable JSON_parse message ->
  on_message message r this = (Ok tt, this, parse_failure_log).
Proof.
  unfold undecodable. intros H. unfold on_message, try_catch, bind, lift.
  destruct (JSON_parse message) as [v|]; [|done]. by rewrite H.
Qed.

(** The listener returns normally whatever the datagram and the state. *)
Lemma on_message_returns message r this :
  exists this' t, on_message message r this = (Ok tt, this', t).
Proof.
  unfold on_message. unfold bind at 1.
  match goal with
  | |- context [try_catch ?m ?h this] =>
      assert (H : exists b s t, try_catch m h this = (Ok b, s, t))
  end.
  { unfold try_catch.
    match goal with |- context [match ?x with _ => _ end] =>
      destruct x as [[[b|e] s1] t1] end; simpl; eauto. }
  destruct H as (b & s & t & ->). destruct b; simpl; eauto.
Qed.

Lemma deliver_returns datagrams this :
  exists this' t, deliver datagrams this = (Ok tt, this', t).
Proof.
  revert this. induction datagrams as [|[message r] rest IH]; intros this.
  - simpl. unfold ret. eauto.
  - simpl. unfold bind.
    destruct (on_message_returns message r this) as (s1 & t1 & ->).
    destruct (IH s1) as (s2 & t2 & ->). eauto.
Qed.

(** C5.  A datagram that cannot be decoded is logged as a parse failure
    (and as an invalid message) and dropped: no callback runs, nothing is
    sent, the listener returns normally and the node is unchanged, so the
    datagrams after it are handled as if it had not arrived.  Whatever the
    datagrams, the listener never throws. *)
Theorem C5_malformed_datagram (this : UdpNode) (message : string) (r : rinfo)
    (rest : list (string * rinfo)) :
  undecodable JSON_parse message ->
  on_message message r this = (Ok tt, this, parse_failure_log) /\
  deliver ((message, r) :: rest) this =
    (let '(res, this', t) := deliver rest this in
     (res, this', parse_failure_log ++ t)) /\
  (forall datagrams this0, fst (fst (deliver datagrams this0)) = Ok tt) /\
  (forall message0 r0 this0, fst (fst (on_message message0 r0 this0)) = Ok tt).
Proof.
  intros H. split_and!.
  - by apply on_message_undecodable.
  - simpl. unfold bind. rewrite on_message_undecodable by done.
    by destruct (deliver rest this) as [[res s] t].
  - intros ds s. by destruct (deliver_returns ds s) as (s' & t & ->).
  - intros m0 r0 s. by destruct (on_message_returns m0 r0 s) as (s' & t & ->).
Qed.

(** [isNodeOfInterest] only reads. *)
Lemma isNodeOfInterest_pure message this :
  exists res, isNodeOfInterest message this = (res, this, []).
Proof.
  unfold isNodeOfInterest, bind, read, lift, ret.
  destruct (get message "from") as [from|]; [|eauto].
  destruct (strict_eq from _); [eauto|].
  destruct (get message "filter") as [filter|]; [|eauto].
  destruct (truthy filter); simpl.
  - destruct (get filter "length") as [len|]; [|eauto]. simpl.
    destruct (truthy len); simpl; [|eauto].
    destruct (strict_eq _ VUndef); [eauto|].
    destruct (call_indexOf _ _); simpl; eauto.
  - eauto.
Qed.

Lemma pong_sends message r this :
  wasSetup this = true -> port r ≠ 0%Z -> address r ≠ "" ->
  pong message r this = (Ok tt, this, [pong_datagram this r]).
Proof.
  intros Hs Hp Ha. unfold pong, bind, read, with_local.
  rewrite send_ok by done.
  assert (stamped this
            [("type", VStr "pong"); ("port", VNum (port r));
             ("address", VStr (address r)); ("node", VObj (config this))]
          = pong_envelope this r) as ->.
  { unfold stamped, js_or. simpl. unfold get_own. simpl.
    destruct (Z.eqb_spec (port r) 0); [done|].
    destruct (String.eqb_spec (address r) ""); done. }
  done.
Qed.

(** What [onPing] and [onBroadcast] do once the interest filter has let the
    message through, when the discovery callback returns. *)
Lemma answer_returns what message r this this1 t1 :
  body (onNodeCallback this) message r this = (Ok tt, this1, t1) ->
  wasSetup this1 = true -> port r ≠ 0%Z -> address r ≠ "" ->
  (emit (logger_debug what) ;;
   this <- read ;;
   invoke (onNodeCallback this) message r ;;
   pong message r) this =
  (Ok tt, this1,
   [logger_debug what; call (onNodeCallback this) message r] ++ t1 ++
   [pong_datagram this1 r]).
Proof.
  intros Hb Hs Hp Ha. unfold invoke, bind, emit, read.
  rewrite Hb, pong_sends by done. done.
Qed.


Lemma on_message_request bytes message r this what :
  JSON_parse bytes = Some message ->
  get message "type" = Ok (VStr "ping") /\ what = "got PING:" \/
  get message "type" = Ok (VStr "broadcast") /\ what = "got BROADCAST:" ->
  forall interested,
    isNodeOfInterest message this = (Ok interested, this, []) ->
    on_message bytes r this =
    (if interested : bool
     then
       let '(res, this1, t) :=
         (emit (logger_debug what) ;;
          this <- read ;;
          invoke (onNodeCallback this) message r ;;
          pong message r) this in
       match res with
       | Ok _ => (Ok tt, this1, t)
       | Throw _ => (Ok tt, this1, t ++ parse_failure_log)
       end
     else (Ok tt, this, [])).
Proof.
  intros Hp Ht interested Hi.
  unfold on_message, try_catch. unfold bind at 1 2 3. unfold lift.
  rewrite Hp.
  destruct Ht as [[-> ->]|[-> ->]]; simpl; unfold bind at 1.
  - unfold onPing. unfold bind at 1. rewrite Hi.
    destruct interested; simpl; [|done].
    destruct (bind (emit (logger_debug _)) _ this) as [[[[]|e] s1] t1];
      simpl; by rewrite ?app_nil_r, <- ?app_assoc.
  - unfold onBroadcast. unfold bind at 1. rewrite Hi.
    destruct interested; simpl; [|done].
    destruct (bind (emit (logger_debug _)) _ this) as [[[[]|e] s1] t1];
      simpl; by rewrite ?app_nil_r, <- ?app_assoc.
Qed.


End Dispatch.

Section Pong.
Variable JSON_stringify : value -> string.
Variable JSON_parse : string -> option value.

Local Abbreviation on_message := (on_message JSON_stringify JSON_parse inert).

End Pong.

(** ** Custom events *)

Lemma call_each_calls l message r this :
  call_each inert l message r this =
  (Ok tt, this, map (fun f => call f message r) (functions l)).
Proof.
  induction l as [|[v|f] l IH]; simpl; [done|done|].
  unfold invoke, bind, emit.
  change (inert f message r this) with (Ok tt, this, @nil effect).
  cbv beta iota. by rewrite IH.
Qed.

(** Listeners that return and leave the node as it is are called one after
    the other. *)
Lemma call_each_returns body l message r this :
  (forall f, f ∈ functions l ->
     exists t, body f message r this = (Ok tt, this, t)) ->
  call_each body l message r this =
  (Ok tt, this,
   concat (map (fun f => call f message r :: snd (body f message r this))
             (functions l))).
Proof.
  induction l as [|[v|f] l IH]; simpl; intros H; [done|by apply IH|].
  destruct (H f) as [t Hf]; [left|].
  unfold invoke, bind, emit. rewrite Hf, IH; [done|].
  intros g Hg. apply H. by right.
Qed.



Lemma inherited_nonempty type : inherited type = true -> type ≠ "".
Proof. by intros H ->. Qed.

Lemma on_appends type f this :
  type ≠ "" -> inherited type = false ->
  on type (Fun f) this =
  (Ok tt,
   with_events (<[type := default [] (events this !! type) ++ [Fun f]]>) this,
   []).
Proof.
  intros Hne Hi. unfold on. destruct (String.eqb_spec type ""); [done|]. simpl.
  unfold bind, modify, read, with_events. simpl.
  destruct (events this !! type) as [l|] eqn:E; simpl.
  - by rewrite E.
  - rewrite Hi. simpl. rewrite lookup_insert_eq. simpl.
    by rewrite insert_insert_eq.
Qed.

(** Under an inherited name nothing is registered. *)
Lemma on_inherited type f this :
  inherited type = true -> events this !! type = None ->
  on type (Fun f) this = (Throw TypeError, this, []).
Proof.
  intros Hi E. pose proof (inherited_nonempty _ Hi) as Hne.
  unfold on. destruct (String.eqb_spec type ""); [done|]. simpl.
  unfold bind, modify, read, with_events. simpl. rewrite E, Hi. simpl.
  rewrite E. by destruct this.
Qed.


Section CustomEvents.
Variable JSON_stringify : value -> string.
Variable JSON_parse : string -> option value.
Variable body : fn -> value -> rinfo -> M UdpNode unit.

Local Abbreviation on_message := (on_message JSON_stringify JSON_parse body).

Lemma on_message_custom bytes message type r this :
  JSON_parse bytes = Some message ->
  get message "type" = Ok type ->
  is_builtin type = false ->
  on_message bytes r this =
  match events this !! to_string type with
  | Some listeners =>
      let '(res, this1, t) := call_each body listeners message r this in
      (Ok tt, this1,
       logger_debug ("got " +:+ to_string type +:+ ":") :: t ++
       match res with
       | Ok _ => []
       | Throw _ => parse_failure_log
       end)
  | None =>
      (Ok tt, this,
       if inherited (to_string type)
       then logger_debug ("got " +:+ to_string type +:+ ":") ::
            parse_failure_log
       else [logger_debug "got INVALID message:"])
  end.
Proof.
  intros Hp Ht Hb. unfold is_builtin in Hb.
  apply orb_false_elim in Hb as [Hb Hb3].
  apply orb_false_elim in Hb as [Hb1 Hb2].
  unfold on_message, try_catch, onCustomEvent, isCustomEvent.
  unfold bind, lift, read, emit, ret.
  rewrite Hp, Ht, Hb1, Hb2, Hb3.
  destruct (events this !! to_string type) as [l|] eqn:E.
  - rewrite bool_decide_eq_true_2 by eauto. rewrite orb_true_l.
    cbv beta iota. rewrite E.
    destruct (call_each body l message r this) as [[[[]|e] s1] t1]; simpl.
    + by rewrite !app_nil_r.
    + by rewrite <- !app_assoc.
  - rewrite bool_decide_eq_false_2 by (by intros [? ?]). rewrite orb_false_l.
    destruct (inherited (to_string type)); cbv beta iota; [|done].
    rewrite E. done.
Qed.

End CustomEvents.

Section NotAnObject.
Variable JSON_stringify : value -> string.
Variable JSON_parse : string -> option value.

Local Abbreviation on_message := (on_message JSON_stringify JSON_parse inert).

(** JSON that is not an object is never answered.  [null] makes
    [message.type] throw and is logged as a parse failure; a number, string,
    boolean or array has no [type], so it goes to the listeners registered
    under the name ['undefined'], if there are any, and is logged as invalid
    if not. *)
Lemma on_message_not_an_object bytes v r this :
  JSON_parse bytes = Some v ->
  (forall o, v ≠ VObj o) ->
  on_message bytes r this =
  (Ok tt, this,
   match v with
   | VUndef | VNull => parse_failure_log
   | _ =>
       match events this !! "undefined" with
       | Some listeners =>
           logger_debug "got undefined:" ::
           map (fun f => call f v r) (functions listeners)
       | None => [logger_debug "got INVALID message:"]
       end
   end).
Proof.
  intros Hp Hv.
  assert (Hthrow : get v "type" = Throw TypeError ->
            on_message bytes r this = (Ok tt, this, parse_failure_log)).
  { intros Ht. unfold on_message, try_catch, bind, lift. by rewrite Hp, Ht. }
  assert (Hnone : get v "type" = Ok VUndef ->
            on_message bytes r this =
            (Ok tt, this,
             match events this !! "undefined" with
             | Some listeners =>
                 logger_debug "got undefined:" ::
                 map (fun f => call f v r) (functions listeners)
             | None => [logger_debug "got INVALID message:"]
             end)).
  { intros Ht. rewrite (on_message_custom _ _ _ _ _ VUndef _ _ Hp Ht); [|done].
    simpl. destruct (events this !! "undefined") as [l|]; [|done].
    by rewrite call_each_calls, app_nil_r. }
  destruct v as [| |b|n|s|l|o].
  - by apply Hthrow.
  - by apply Hthrow.
  - by apply Hnone.
  - by apply Hnone.
  - by apply Hnone.
  - by apply Hnone.
  - by destruct (Hv o).
Qed.
End NotAnObject.

(** ** Once closed, closed for good *)

Create HintDb quiet.

Section Quiet.
Context {S : Type} (closed : S -> bool).

Lemma quiet_ret {A} (a : A) : quiet closed (ret a).
Proof. by intros s Hs. Qed.

Lemma quiet_throw {A} (e : exn) : quiet closed (@throw S A e).
Proof. by intros s Hs. Qed.

Lemma quiet_lift {A} (r : result A) : quiet closed (lift r).
Proof. by intros s Hs. Qed.

Lemma quiet_read : quiet closed read.
Proof. by intros s Hs. Qed.

Lemma quiet_emit e : is_close e = false -> quiet closed (emit e).
Proof. intros He s Hs. simpl. by rewrite He. Qed.

Lemma quiet_modify (f : S -> S) :
  (forall s, closed s = true -> closed (f s) = true) -> quiet closed (modify f).
Proof. intros Hf s Hs. simpl. auto. Qed.

Lemma quiet_bind {A B} (m : M S A) (k : A -> M S B) :
  quiet closed m -> (forall a, quiet closed (k a)) -> quiet closed (bind m k).
Proof.
  intros Hm Hk s Hs. unfold bind. specialize (Hm s Hs).
  destruct (m s) as [[[a|e] s1] t1]; simpl in *; [|done].
  destruct Hm as [Hs1 Ht1]. specialize (Hk a s1 Hs1).
  destruct (k a s1) as [[r s2] t2]; simpl in *.
  rewrite forallb_app. by destruct Hk as [-> ->]; rewrite Ht1.
Qed.

Lemma quiet_try_catch {A} (m : M S A) (h : exn -> M S A) :
  quiet closed m -> (forall e, quiet closed (h e)) ->
  quiet closed (try_catch m h).
Proof.
  intros Hm Hh s Hs. unfold try_catch. specialize (Hm s Hs).
  destruct (m s) as [[[a|e] s1] t1]; simpl in *; [done|].
  destruct Hm as [Hs1 Ht1]. specialize (Hh e s1 Hs1).
  destruct (h e s1) as [[r s2] t2]; simpl in *.
  rewrite forallb_app. by destruct Hh as [-> ->]; rewrite Ht1.
Qed.

Lemma quiet_if {A} (b : bool) (m1 m2 : M S A) :
  quiet closed m1 -> quiet closed m2 -> quiet closed (if b then m1 else m2).
Proof. by destruct b. Qed.

Lemma quiet_option {A B} (o : option B) (m1 : B -> M S A) (m2 : M S A) :
  (forall b, quiet closed (m1 b)) -> quiet closed m2 ->
  quiet closed (match o with Some b => m1 b | None => m2 end).
Proof. by destruct o. Qed.
End Quiet.

Lemma quiet_with_local {S X A} (closed : S -> bool) (x : X)
    (m : M (S * X) A) :
  quiet (fun p => closed (fst p)) m -> quiet closed (with_local x m).
Proof.
  intros Hm s Hs. unfold with_local. specialize (Hm (s, x) Hs).
  by destruct (m (s, x)) as [[r [s1 x1]] t].
Qed.

#[export] Hint Resolve quiet_ret quiet_throw quiet_lift quiet_read quiet_emit
  quiet_modify quiet_bind quiet_try_catch quiet_if quiet_option
  quiet_with_local : quiet.
#[export] Hint Extern 1 (is_close _ = false) => reflexivity : quiet.
#[export] Hint Extern 1 (forall s, isClosed s = true -> isClosed _ = true) =>
  (intros ? ?; simpl; assumption) : quiet.

Section Closed.
Variable JSON_stringify : value -> string.
Variable JSON_parse : string -> option value.
Variable body : fn -> value -> rinfo -> M UdpNode unit.
(** The callbacks act on the node through its methods, none of which
    reopens a node or closes the socket of a closed one. *)
Hypothesis body_quiet :
  forall f message r, quiet isClosed (body f message r).

Lemma send_quiet callback :
  quiet (fun p => isClosed (fst p)) (send JSON_stringify callback).
Proof.
  intros [this message] Hs. unfold send.
  destruct (wasSetup this); simpl; [|done].
  by destruct (truthy (get_own message "type")).
Qed.

Lemma set_quiet config' : quiet isClosed (set config').
Proof. unfold set. eauto 30 with quiet. Qed.

Lemma broadcast_quiet params : quiet isClosed (broadcast JSON_stringify params).
Proof. pose proof send_quiet. unfold broadcast. eauto 30 with quiet. Qed.

Lemma ping_quiet params : quiet isClosed (ping JSON_stringify params).
Proof. pose proof send_quiet. unfold ping. eauto 30 with quiet. Qed.

Lemma pong_quiet message r : quiet isClosed (pong JSON_stringify message r).
Proof. pose proof send_quiet. unfold pong. eauto 30 with quiet. Qed.

Lemma isNodeOfInterest_quiet message : quiet isClosed (isNodeOfInterest message).
Proof. unfold isNodeOfInterest. eauto 40 with quiet. Qed.

Lemma invoke_quiet f message r : quiet isClosed (invoke body f message r).
Proof. unfold invoke. eauto with quiet. Qed.

Lemma onPing_quiet message r : quiet isClosed (onPing JSON_stringify body message r).
Proof.
  pose proof pong_quiet. pose proof isNodeOfInterest_quiet.
  pose proof invoke_quiet. unfold onPing. eauto 30 with quiet.
Qed.

Lemma onBroadcast_quiet message r :
  quiet isClosed (onBroadcast JSON_stringify body message r).
Proof.
  pose proof pong_quiet. pose proof isNodeOfInterest_quiet.
  pose proof invoke_quiet. unfold onBroadcast. eauto 30 with quiet.
Qed.

Lemma onPong_quiet message r : quiet isClosed (onPong body message r).
Proof. pose proof invoke_quiet. unfold onPong. eauto 30 with quiet. Qed.

Lemma call_each_quiet l message r : quiet isClosed (call_each body l message r).
Proof.
  pose proof invoke_quiet.
  induction l as [|[v|f] l IH]; simpl; eauto with quiet.
Qed.

Lemma onCustomEvent_quiet type message r :
  quiet isClosed (onCustomEvent body type message r).
Proof. pose proof call_each_quiet. unfold onCustomEvent. eauto 30 with quiet. Qed.

Lemma on_quiet type callback : quiet isClosed (on type callback).
Proof. unfold on. eauto 30 with quiet. Qed.

Lemma off_quiet type index : quiet isClosed (off type index).
Proof. unfold off. destruct index; eauto 30 with quiet. Qed.

Lemma close_quiet callback : quiet isClosed (close callback).
Proof. intros s Hs. by rewrite close_closed. Qed.

Lemma on_message_quiet message r :
  quiet isClosed (on_message JSON_stringify JSON_parse body message r).
Proof.
  pose proof onPing_quiet. pose proof onPong_quiet.
  pose proof onBroadcast_quiet. pose proof onCustomEvent_quiet.
  unfold on_message. eauto 40 with quiet.
Qed.

Lemma perform_quiet op : quiet isClosed (perform JSON_stringify JSON_parse body op).
Proof.
  pose proof send_quiet.
  destruct op; simpl;
    eauto using set_quiet, broadcast_quiet, ping_quiet, on_quiet, off_quiet,
      close_quiet, on_message_quiet with quiet.
Qed.

Lemma perform_all_quiet ops :
  quiet isClosed (perform_all JSON_stringify JSON_parse body ops).
Proof.
  induction ops as [|op ops IH]; simpl; eauto using perform_quiet with quiet.
Qed.

Lemma perform_all_returns ops this :
  fst (fst (perform_all JSON_stringify JSON_parse body ops this)) = Ok tt.
Proof.
  revert this. induction ops as [|op ops IH]; intros this; [done|].
  simpl. unfold bind, try_catch.
  destruct (perform _ _ _ op this) as [[[[]|e] s1] t1]; simpl.
  - specialize (IH s1). by destruct (perform_all _ _ _ ops s1) as [[r s2] t2].
  - specialize (IH s1). by destruct (perform_all _ _ _ ops s1) as [[r s2] t2].
Qed.

(** C8.  After a first [close], a later [close] returns normally, changes
    nothing and calls no collaborator, and so it stays whatever the node is
    asked to do in between: the node remains closed and [client.close] is not
    called again.  On a node that is still open, any number of [close] calls
    in a row closes the socket exactly once, with the callback of the first
    call. *)
Theorem C8_close_idempotent (this : UdpNode) (first later : jsarg)
    (rest : list jsarg) (ops : list operation) :
  (forall this1, this1 = snd (fst (close first this)) ->
     isClosed this1 = true /\
     close later this1 = (Ok tt, this1, []) /\
     (forall this2 t,
        perform_all JSON_stringify JSON_parse body ops this1 =
          (Ok tt, this2, t) ->
        isClosed this2 = true /\
        forallb (fun e => negb (is_close e)) t = true /\
        close later this2 = (Ok tt, this2, []))) /\
  (isClosed this = false ->
     close_all (first :: rest) this =
     (Ok tt, with_isClosed true this,
      [logger_debug "CLOSE"; client_close first])).
Proof.
  split.
  - intros this1 ->.
    assert (Hc : isClosed (snd (fst (close first this))) = true).
    { destruct (isClosed this) eqn:E.
      - by rewrite close_closed.
      - by rewrite close_open. }
    split_and!; [done|by apply close_closed|].
    intros this2 t Hops.
    destruct (perform_all_quiet ops _ Hc) as [H1 H2].
    rewrite Hops in H1, H2. simpl in H1, H2.
    split_and!; [done|done|by apply close_closed].
  - intros E. simpl. unfold bind. rewrite close_open by done.
    by rewrite close_all_closed.
Qed.
End Closed.

(** ** The interest filter *)

Lemma index_of_member r roles i :
  (0 <= i)%Z ->
  (index_of (VStr r) (map VStr roles) i =? -1)%Z = negb (bool_decide (r ∈ roles)).
Proof.
  revert i. induction roles as [|a roles IH]; intros i Hi; simpl; [done|].
  destruct (String.eqb_spec a r) as [->|Hne].
  - rewrite bool_decide_eq_true_2 by left. simpl. lia.
  - rewrite IH by lia. f_equal. apply bool_decide_ext. rewrite elem_of_cons.
    split; [by right | intros [->|?]; done].
Qed.

(** For a message whose filter is absent or a list of role names, and a
    node whose role is unset or a name, [isNodeOfInterest] decides by the four
    rules, in their order. *)
Lemma isNodeOfInterest_rules (message : obj) (this : UdpNode)
    (filter : option (list string)) (role : option string) :
  get_own message "filter" = filter_value filter ->
  get_own (config this) "type" = role_value role ->
  isNodeOfInterest (VObj message) this =
  (Ok (interest_rules (get_own message "from") (get_own (config this) "id")
         filter role), this, []).
Proof.
  intros Hf Hr. unfold isNodeOfInterest, interest_rules.
  unfold bind, read, lift, ret. simpl. rewrite Hf, Hr.
  destruct (strict_eq _ _); [done|].
  destruct filter as [[|a roles]|]; simpl; [done| |done].
  destruct role as [r|]; simpl; [|done].
  pose proof (index_of_member r (a :: roles) 0 ltac:(lia)) as H.
  simpl in H. rewrite H. by rewrite negb_involutive.
Qed.

(** ** Configuration *)

Lemma set_configures config' this :
  set config' this =
  (Ok (with_config (configured config') this),
   with_config (configured config') this,
   [logger_debug "-- Setting configuration:";
    client_on "listening"; client_on "message";
    client_bind (js_or (get_own config' "port") (VNum DEFAULTS.PORT))]).
Proof.
  unfold set, bind, emit, modify, read, ret. simpl.
  unfold configured. simpl.
  rewrite (get_set_prop_ne "name" "port") by done.
  rewrite (get_set_prop_ne "broadcastAddress" "port") by done.
  rewrite get_set_prop_eq. by destruct this.
Qed.

(** What [set] writes, what it leaves alone, and that the node counts as
    set up afterwards. *)
Lemma configured_fields config' c :
  get_own (configured config' c) "id" =
    js_or (get_own config' "id") (get_own c "id") /\
  get_own (configured config' c) "port" =
    js_or (get_own config' "port") (VNum DEFAULTS.PORT) /\
  get_own (configured config' c) "broadcastAddress" =
    js_or (get_own config' "broadcastAddress")
          (VStr DEFAULTS.BROADCAST_ADDRESS) /\
  get_own (configured config' c) "name" =
    js_or (get_own config' "name") VNull /\
  (forall k, k ≠ "id" -> k ≠ "port" -> k ≠ "broadcastAddress" -> k ≠ "name" ->
     lookup_prop k (configured config' c) = lookup_prop k c) /\
  (1 < length (Object_keys (configured config' c)))%nat.
Proof.
  unfold configured. split_and!.
  - rewrite !get_set_prop_ne by done. apply get_set_prop_eq.
  - rewrite !get_set_prop_ne by done. apply get_set_prop_eq.
  - rewrite !get_set_prop_ne by done. apply get_set_prop_eq.
  - apply get_set_prop_eq.
  - intros k H1 H2 H3 H4. by rewrite !lookup_set_prop_ne.
  - unfold Object_keys. rewrite length_map.
    eapply (two_props_length "id" "port"); [done| |].
    + rewrite !lookup_set_prop_ne by done. apply lookup_set_prop_eq.
    + rewrite !lookup_set_prop_ne by done. apply lookup_set_prop_eq.
Qed.

Lemma wasSetup_constructor uuid : wasSetup (constructor uuid) = false.
Proof. done. Qed.

Lemma wasSetup_set config' this :
  wasSetup (with_config (configured config') this) = true.
Proof.
  unfold wasSetup. simpl. apply Nat.ltb_lt. apply configured_fields.
Qed.

Lemma reachable_no_type c :
  reachable_config c ->
  lookup_prop "type" c = None /\ lookup_prop "role" c = None.
Proof.
  induction 1 as [uuid|config' c _ [IH1 IH2]]; [done|].
  destruct (configured_fields config' c) as (_ & _ & _ & _ & H & _).
  by rewrite !H.
Qed.

(** Whatever [set] was given, the third rule lets every message through
    that the first did not stop. *)
Lemma reachable_always_interested (message : obj) (this : UdpNode)
    (filter : option (list string)) :
  reachable_config (config this) ->
  get_own message "filter" = filter_value filter ->
  isNodeOfInterest (VObj message) this =
  (Ok (negb (strict_eq (get_own message "from") (get_own (config this) "id"))),
   this, []).
Proof.
  intros Hr Hf. destruct (reachable_no_type _ Hr) as [Ht _].
  rewrite (isNodeOfInterest_rules message this filter None Hf).
  - unfold interest_rules. destruct (strict_eq _ _); [done|].
    by destruct filter as [[|]|].
  - unfold get_own. by rewrite Ht.
Qed.

(** ** Serialisation of a message *)

Lemma to_json_obj o : to_json (VObj o) = Some (VObj (json_props o)).
Proof.
  simpl. do 2 f_equal.
Qed.

Lemma json_props_keys k o : k ∈ map fst (json_props o) -> k ∈ map fst o.
Proof.
  induction o as [|[k' x] o IH]; simpl; [done|].
  destruct (to_json x); simpl; rewrite ?elem_of_cons.
  - intros [?|?]; [by left|right; auto].
  - right; auto.
Qed.

Lemma lookup_json_props k o :
  NoDup (map fst o) ->
  lookup_prop k (json_props o) = lookup_prop k o ≫= to_json.
Proof.
  induction o as [|[k' x] o IH]; simpl; [done|].
  intros [Hk Hnd]%NoDup_cons. specialize (IH Hnd).
  destruct (String.eqb_spec k k') as [->|Hne]; simpl.
  - destruct (to_json x) as [j|]; simpl.
    + by rewrite String.eqb_refl.
    + apply lookup_prop_None. intros ?%json_props_keys. done.
  - destruct (to_json x) as [j|]; simpl; [|done].
    by destruct (String.eqb_spec k k').
Qed.

Lemma wf_arr l : wf_value (VArr l) <-> Forall wf_value l.
Proof.
  simpl. induction l as [|x l IH]; [done|].
  rewrite Forall_cons. by rewrite IH.
Qed.

Lemma wf_obj o :
  wf_value (VObj o) <->
  NoDup (map fst o) /\ Forall (fun kv => wf_value (snd kv)) o.
Proof.
  simpl. apply and_iff_compat_l.
  induction o as [|[k x] o IH]; [done|].
  rewrite Forall_cons. by rewrite IH.
Qed.

Lemma wf_get_own o k : wf_value (VObj o) -> wf_value (get_own o k).
Proof.
  intros [_ Hall]%wf_obj. unfold get_own.
  induction Hall as [|[k' x] o Hx _ IH]; simpl; [done|].
  by destruct (String.eqb k k').
Qed.

Lemma Forall_set_prop (P : string * value -> Prop) k v o :
  P (k, v) -> Forall P o -> Forall P (set_prop k v o).
Proof.
  intros Hv. induction o as [|[k' x] o IH]; simpl.
  - by repeat constructor.
  - intros [Hx Ho]%Forall_cons.
    destruct (String.eqb k k'); apply Forall_cons; auto.
Qed.

Lemma wf_set_prop k v o :
  wf_value (VObj o) -> wf_value v -> wf_value (VObj (set_prop k v o)).
Proof.
  rewrite !wf_obj. intros [Hnd Hall] Hv. split; [by apply set_prop_NoDup|].
  by apply Forall_set_prop.
Qed.

Lemma wf_js_or a b : wf_value a -> wf_value b -> wf_value (js_or a b).
Proof. unfold js_or. by destruct (truthy a). Qed.

Lemma wf_stamped this message :
  wf_value (VObj (config this)) -> wf_value (VObj message) ->
  wf_value (VObj (stamped this message)).
Proof.
  intros Hc Hm. unfold stamped.
  repeat first [ apply wf_set_prop | apply wf_js_or | apply wf_get_own ]; done.
Qed.

Section Codec.
Variable JSON_stringify : value -> string.
Variable JSON_parse : string -> option value.

(** The platform's codec reads back what it wrote. *)
Hypothesis JSON_roundtrip :
  forall v j, wf_value v -> to_json v = Some j ->
              JSON_parse (JSON_stringify v) = Some j.

End Codec.

(** ** The reference codec reads back what it writes *)

Lemma to_json_None v : to_json v = None -> v = VUndef.
Proof. by destruct v. Qed.

Lemma to_json_arr l :
  to_json (VArr l) = Some (VArr (map (fun x => default VNull (to_json x)) l)).
Proof. done. Qed.

Lemma to_json_is_json v j : to_json v = Some j -> is_json j = true.
Proof.
  revert j. induction v as [| | | | |l IH|o IH] using value_ind; intros j;
    try (by intros [= <-]).
  - rewrite to_json_arr. intros [= <-]. simpl.
    induction IH as [|x l Hx _ IHl]; simpl; [done|].
    rewrite IHl, andb_true_r.
    destruct (to_json x) eqn:E; simpl; [by apply Hx|done].
  - rewrite to_json_obj. intros [= <-]. simpl.
    induction IH as [|[k x] o Hx _ IHo]; simpl; [done|].
    simpl in Hx. destruct (to_json x) eqn:E; simpl; [|done].
    rewrite IHo, andb_true_r. by apply Hx.
Qed.

Lemma to_json_wf v j : wf_value v -> to_json v = Some j -> wf_value j.
Proof.
  revert j. induction v as [| | | | |l IH|o IH] using value_ind; intros j Hwf;
    try (by intros [= <-]).
  - rewrite to_json_arr. intros [= <-].
    apply wf_arr in Hwf. apply wf_arr.
    induction IH as [|x l Hx _ IHl]; simpl; [done|].
    apply Forall_cons in Hwf as [Hwx Hwl]. apply Forall_cons. split; [|auto].
    destruct (to_json x) eqn:E; simpl; [by apply Hx|done].
  - rewrite to_json_obj. intros [= <-].
    apply wf_obj in Hwf as [Hnd Hall]. apply wf_obj. split.
    + clear IH Hall. induction o as [|[k x] o IHo]; simpl; [done|].
      apply NoDup_cons in Hnd as [Hk Hnd].
      destruct (to_json x); simpl; [|auto].
      apply NoDup_cons. split; [|auto]. by intros ?%json_props_keys.
    + clear Hnd. induction IH as [|[k x] o Hx _ IHo]; simpl; [done|].
      apply Forall_cons in Hall as [Hwx Hwo]. simpl in *.
      destruct (to_json x) eqn:E; [|auto].
      apply Forall_cons. split; [by apply Hx|auto].
Qed.

Lemma write_to_json v j k :
  to_json v = Some j -> RefJSON.write v k = RefJSON.write j k.
Proof.
  revert j k. induction v as [| | | | |l IH|o IH] using value_ind; intros j k;
    try (by intros [= <-]).
  - rewrite to_json_arr. intros [= <-]. simpl. f_equal.
    induction IH as [|x l Hx Hl IHl]; simpl; [done|].
    assert (Hxk : forall k', RefJSON.write x k' =
                     RefJSON.write (default VNull (to_json x)) k').
    { intros k'. destruct (to_json x) eqn:E; simpl; [by apply Hx|].
      by rewrite (to_json_None _ E). }
    destruct l as [|y l]; simpl; [apply Hxk|].
    rewrite Hxk. do 2 f_equal. apply IHl.
  - rewrite to_json_obj. intros [= <-]. simpl. f_equal.
    generalize true.
    induction IH as [|[key x] o Hx _ IHo]; intros first; simpl; [done|].
    simpl in Hx. destruct (to_json x) as [jx|] eqn:E.
    + assert (x ≠ VUndef) by (by intros ->).
      assert (jx ≠ VUndef).
      { intros ->. by pose proof (to_json_is_json _ _ E). }
      simpl. rewrite <- (Hx jx) by done. rewrite (IHo false).
      destruct x; try done; destruct jx; done.
    + rewrite (to_json_None _ E). apply IHo.
Qed.

Section Reading.
Import RefJSON.

Lemma read_string_escape_char c k :
  read_string (escape_char c k) = cons_char c <$> read_string k.
Proof. destruct c as [[] [] [] [] [] [] [] []]; reflexivity. Qed.

Lemma read_string_escape s k :
  read_string (escape s (String dquote k)) = Some (s, k).
Proof.
  induction s as [|c s IH]; [done|].
  simpl. by rewrite read_string_escape_char, IH.
Qed.

Lemma read_digits_uint d k :
  follow_ok k -> read_digits (uint_str d k) = (d, k).
Proof.
  intros Hk. induction d; simpl; rewrite ?IHd; try done.
  destruct k; simpl in *; [done|]. by rewrite Hk.
Qed.

(** The numeral of a positive number does not begin with a zero. *)
Lemma to_uint_head p :
  match Pos.to_uint p with
  | Nil | D0 _ => False
  | _ => True
  end.
Proof.
  pose proof (DecimalPos.Unsigned.to_of (Pos.to_uint p)) as H.
  rewrite DecimalPos.Unsigned.of_to in H. simpl in H.
  pose proof (DecimalPos.Unsigned.to_uint_nonzero p) as Hnz.
  pose proof (DecimalFacts.nzhead_nonzero (Pos.to_uint p)) as Hh.
  unfold unorm in H.
  destruct (nzhead (Pos.to_uint p)) eqn:E; rewrite H in *;
    try done; by eapply Hh.
Qed.

Lemma read_nat_uint p k :
  follow_ok k -> read_nat (uint_str (Pos.to_uint p) k) = Some (Npos p, k).
Proof.
  intros Hk. pose proof (to_uint_head p) as Hh.
  pose proof (read_digits_uint (Pos.to_uint p) k Hk) as Hd.
  pose proof (DecimalPos.Unsigned.of_to p) as Hp.
  destruct (Pos.to_uint p) as [|d|d|d|d|d|d|d|d|d|d]; try done;
    unfold read_nat; simpl uint_str; simpl uint_str in Hd;
    rewrite Hd; cbn [fst snd]; rewrite Hp; reflexivity.
Qed.

Lemma read_number_num n k :
  follow_ok k -> read_number (num_str n k) = Some (n, k).
Proof.
  intros Hk. destruct n as [|p|p]; simpl.
  - done.
  - pose proof (to_uint_head p) as Hh.
    pose proof (read_nat_uint p k Hk) as Hr. unfold read_number.
    destruct (Pos.to_uint p) as [|d|d|d|d|d|d|d|d|d|d]; try done;
      simpl uint_str in *; rewrite Hr; reflexivity.
  - by rewrite read_nat_uint.
Qed.
End Reading.

Section Roundtrip.
Import RefJSON.

Lemma num_str_head n k :
  exists c rest, num_str n k = String c rest /\ is_num_start c = true.
Proof.
  destruct n as [|p|p]; simpl; [by eauto| |by eauto].
  pose proof (to_uint_head p) as Hh.
  destruct (Pos.to_uint p); try done; simpl; by eauto.
Qed.

Lemma parse_value_number f c rest :
  is_num_start c = true ->
  parse_value (S f) (String c rest) =
  (fun p => (VNum (fst p), snd p)) <$> read_number (String c rest).
Proof.
  destruct c as [[] [] [] [] [] [] [] []]; intros H;
    try discriminate H; reflexivity.
Qed.

Lemma parse_value_num f n k :
  follow_ok k -> parse_value (S f) (num_str n k) = Some (VNum n, k).
Proof.
  intros Hk. destruct (num_str_head n k) as (c & rest & E & Hc).
  rewrite E, parse_value_number by done.
  by rewrite <- E, read_number_num.
Qed.

Lemma write_head j k :
  is_json j = true ->
  exists c rest, write j k = String c rest /\ is_value_start c = true.
Proof.
  destruct j as [| |[]|n|s|l|o]; intros Hj; try done;
    try (by simpl; eauto).
  destruct (num_str_head n k) as (c & rest & E & Hc).
  exists c, rest. split; [done|].
  revert Hc. clear. destruct c as [[] [] [] [] [] [] [] []]; done.
Qed.

Lemma skip_ws_value_start c rest :
  is_value_start c = true -> skip_ws (String c rest) = String c rest.
Proof.
  unfold is_value_start. intros H. simpl.
  by destruct (is_ws c).
Qed.

Lemma parse_value_array f c rest :
  is_value_start c = true ->
  parse_value (S f) (String "[" (String c rest)) =
  (fun p => (VArr (fst p), snd p)) <$> parse_elements f (String c rest).
Proof.
  intros H. pose proof (skip_ws_value_start c rest H) as Hs.
  unfold is_value_start in H.
  apply andb_prop in H as [[_ H]%andb_prop _].
  apply negb_true_iff in H.
  change (parse_value (S f) (String "[" (String c rest))) with
    (match skip_ws (String c rest) with
     | EmptyString => None
     | String c' rest' =>
         if Ascii.eqb c' "]" then Some (VArr [], rest')
         else (fun p => (VArr (fst p), snd p)) <$>
                parse_elements f (String c rest)
     end).
  by rewrite Hs, H.
Qed.

Lemma parse_value_object f rest :
  parse_value (S f) (String "{" (String dquote rest)) =
  (fun p => (VObj (fst p), snd p)) <$>
    parse_members f [] (String dquote rest).
Proof. reflexivity. Qed.

Lemma is_json_defined x : is_json x = true -> x ≠ VUndef.
Proof. by intros H ->. Qed.

Lemma parse_elements_write l k f :
  l ≠ [] -> Forall reads_back l -> forallb is_json l = true ->
  Forall wf_value l ->
  (list_sum (map (fun x => S (value_size x)) l) <= f)%nat ->
  parse_elements f (write_elements write l k) = Some (l, k).
Proof.
  intros Hne IH. revert f Hne.
  induction IH as [|x l Hx Hl IHl]; intros f Hne Hj Hwf Hf; [done|].
  simpl in Hj, Hf. apply andb_prop in Hj as [Hjx Hjl].
  apply Forall_cons in Hwf as [Hwx Hwl].
  destruct f as [|f]; [lia|].
  destruct l as [|y l].
  - simpl. rewrite (Hx Hjx Hwx) by (done || lia). reflexivity.
  - change (write_elements write (x :: y :: l) k) with
      (write x (String "," (write_elements write (y :: l) k))).
    simpl parse_elements. rewrite (Hx Hjx Hwx) by (done || simpl in *; lia).
    change (skip_ws (String "," ?r)) with (String "," r).
    cbv iota. change (Ascii.eqb "," ",") with true. cbv iota.
    rewrite IHl; [done|done|done|done|]. simpl in *. lia.
Qed.

Lemma write_members_first key x o k :
  x ≠ VUndef ->
  write_members write true ((key, x) :: o) k =
  quote key (String ":" (write x (write_members write false o k))).
Proof. by destruct x. Qed.

Lemma write_members_next key x o k :
  x ≠ VUndef ->
  write_members write false ((key, x) :: o) k =
  String "," (write_members write true ((key, x) :: o) k).
Proof. by destruct x. Qed.

Lemma parse_members_write o acc k f :
  o ≠ [] -> Forall (fun kv => reads_back (snd kv)) o ->
  forallb (fun kv => is_json (snd kv)) o = true ->
  Forall (fun kv => wf_value (snd kv)) o ->
  NoDup (map fst acc ++ map fst o) ->
  (list_sum (map (fun kv => S (value_size (snd kv))) o) <= f)%nat ->
  parse_members f acc (write_members write true o k) = Some (acc ++ o, k).
Proof.
  intros Hne IH. revert f acc Hne.
  induction IH as [|[key x] o Hx Ho IHo]; intros f acc Hne Hj Hwf Hnd Hf;
    [done|].
  simpl in Hj, Hf, Hx. apply andb_prop in Hj as [Hjx Hjo].
  apply Forall_cons in Hwf as [Hwx Hwo]. simpl in Hwx.
  destruct f as [|f]; [lia|].
  rewrite write_members_first by by apply is_json_defined.
  unfold quote at 1.
  assert (Hfresh : key ∉ map fst acc).
  { apply NoDup_app in Hnd as (_ & Hd & _). intros Hin.
    apply (Hd key Hin). left. }
  assert (Hacc : set_prop key x acc = acc ++ [(key, x)])
    by by apply set_prop_keys_fresh.
  assert (Hstep : forall rest,
    parse_members (S f) acc
      (String dquote (escape key (String dquote (String ":" rest)))) =
    match parse_value f rest with
    | None => None
    | Some (v, rest) =>
        match skip_ws rest with
        | EmptyString => None
        | String c rest' =>
            if Ascii.eqb c "," then
              parse_members f (set_prop key v acc) rest'
            else if Ascii.eqb c "}" then Some (set_prop key v acc, rest')
            else None
        end
    end).
  { intros rest. simpl parse_members.
    change (skip_ws (String dquote ?r)) with (String dquote r).
    cbv iota. change (Ascii.eqb dquote dquote) with true.
    cbv iota. simpl negb. cbv iota. rewrite read_string_escape.
    reflexivity. }
  rewrite Hstep. clear Hstep.
  destruct o as [|[key' x'] o].
  - simpl write_members. rewrite (Hx Hjx Hwx) by (done || lia).
    simpl. by rewrite Hacc.
  - simpl in Hjo. apply andb_prop in Hjo as [Hjx' Hjo].
    rewrite write_members_next by by apply is_json_defined.
    rewrite (Hx Hjx Hwx) by (done || simpl in *; lia).
    change (skip_ws (String "," ?r)) with (String "," r).
    cbv iota. change (Ascii.eqb "," ",") with true. cbv iota.
    rewrite Hacc. rewrite IHo.
    + by rewrite <- app_assoc.
    + done.
    + simpl. by rewrite Hjx', Hjo.
    + done.
    + rewrite map_app. simpl. rewrite <- app_assoc. done.
    + simpl in *. lia.
Qed.

(** Every JSON value the language can build is read back from its text. *)
Lemma parse_value_write j : reads_back j.
Proof.
  induction j as [| |b|n|s|l IH|o IH] using value_ind;
    intros Hj Hwf k f Hk Hf; try done.
  - destruct f as [|f]; [simpl in Hf; lia|]. reflexivity.
  - destruct f as [|f]; [simpl in Hf; lia|]. by destruct b.
  - destruct f as [|f]; [simpl in Hf; lia|]. by apply parse_value_num.
  - destruct f as [|f]; [simpl in Hf; lia|].
    simpl write. unfold quote. simpl parse_value.
    change (skip_ws (String dquote ?r)) with (String dquote r).
    cbv iota. by rewrite read_string_escape.
  - destruct f as [|f]; [simpl in Hf; lia|].
    simpl in Hj, Hf. apply wf_arr in Hwf.
    destruct l as [|x l]; [reflexivity|].
    change (write (VArr (x :: l)) k) with
      (String "[" (write_elements write (x :: l) k)).
    assert (Hx : is_json x = true) by (simpl in Hj; by destruct (is_json x)).
    assert (exists c rest,
              write_elements write (x :: l) k = String c rest /\
              is_value_start c = true) as (c & rest & E & Hc).
    { destruct l; simpl; by apply write_head. }
    rewrite E, parse_value_array by done. rewrite <- E.
    rewrite parse_elements_write; try done. lia.
  - destruct f as [|f]; [simpl in Hf; lia|].
    simpl in Hj, Hf. apply wf_obj in Hwf as [Hnd Hwf].
    destruct o as [|[key x] o]; [reflexivity|].
    change (write (VObj ((key, x) :: o)) k) with
      (String "{" (write_members write true ((key, x) :: o) k)).
    assert (Hx : is_json x = true) by (simpl in Hj; by destruct (is_json x)).
    pose proof (write_members_first key x o k (is_json_defined x Hx)) as E.
    unfold quote in E. rewrite E, parse_value_object. rewrite <- E.
    rewrite parse_members_write; try done. lia.
Qed.

Lemma length_uint_str d k :
  (String.length k <= String.length (uint_str d k))%nat.
Proof. induction d; simpl; lia. Qed.

Lemma length_num_str n k :
  (1 + String.length k <= String.length (num_str n k))%nat.
Proof.
  destruct n as [|p|p]; simpl.
  - lia.
  - pose proof (to_uint_head p) as Hh.
    destruct (Pos.to_uint p) as [|d|d|d|d|d|d|d|d|d|d]; try done; simpl;
      pose proof (length_uint_str d k); lia.
  - pose proof (length_uint_str (Pos.to_uint p) k). lia.
Qed.

Lemma length_escape s k :
  (String.length k <= String.length (escape s k))%nat.
Proof.
  induction s as [|c s IH]; simpl; [lia|].
  unfold escape_char. repeat case_match; simpl; lia.
Qed.

Lemma length_quote s k :
  (2 + String.length k <= String.length (quote s k))%nat.
Proof.
  unfold quote. simpl.
  pose proof (length_escape s (String dquote k)). simpl in *. lia.
Qed.

Lemma length_write j k :
  is_json j = true ->
  (value_size j + String.length k <= String.length (write j k))%nat.
Proof.
  revert k. induction j as [| |b|n|s|l IH|o IH] using value_ind;
    intros k Hj; try done.
  - simpl. lia.
  - destruct b; simpl; lia.
  - apply length_num_str.
  - pose proof (length_quote s k). simpl in *. lia.
  - change (write (VArr l) k) with (String "[" (write_elements write l k)).
    simpl in *.
    enough (list_sum (map (fun x => S (value_size x)) l) + String.length k
            <= String.length (write_elements write l k))%nat by lia.
    induction IH as [|x l Hx _ IHl]; [simpl; lia|].
    simpl in Hj. apply andb_prop in Hj as [Hjx Hjl]. specialize (IHl Hjl).
    destruct l as [|y l].
    + simpl. pose proof (Hx (String "]" k) Hjx). simpl in *. lia.
    + change (write_elements write (x :: y :: l) k) with
        (write x (String "," (write_elements write (y :: l) k))).
      pose proof (Hx (String "," (write_elements write (y :: l) k)) Hjx).
      simpl in *. lia.
  - change (write (VObj o) k) with (String "{" (write_members write true o k)).
    simpl in *.
    enough (forall first,
              list_sum (map (fun kv => S (value_size (snd kv))) o) + String.length k
              <= String.length (write_members write first o k))%nat
      by (specialize (H true); lia).
    induction IH as [|[key x] o Hx _ IHo]; intros first; [simpl; lia|].
    simpl in Hj, Hx. apply andb_prop in Hj as [Hjx Hjo].
    specialize (IHo Hjo false).
    pose proof (Hx (write_members write false o k) Hjx) as Hlen.
    pose proof (length_quote key
                  (String ":" (write x (write_members write false o k)))).
    destruct first.
    + rewrite write_members_first by by apply is_json_defined.
      simpl in *. lia.
    + rewrite write_members_next, write_members_first
        by by apply is_json_defined.
      simpl in *. lia.
Qed.

(** The reference codec satisfies the law of the platform's codec. *)
Lemma RefJSON_parse_stringify v j :
  wf_value v -> to_json v = Some j -> parse (stringify v) = Some j.
Proof.
  intros Hwf Hj. unfold parse, stringify.
  rewrite (write_to_json v j "" Hj).
  pose proof (to_json_is_json v j Hj) as Hjson.
  pose proof (to_json_wf v j Hwf Hj) as Hwfj.
  rewrite (parse_value_write j Hjson Hwfj "" (S (String.length (write j ""))));
    [done|done|].
  pose proof (length_write j "" Hjson). lia.
Qed.
End Roundtrip.

(** ** Two nodes on one network *)

(** C1, at the input where the code departs from it.  [nodeB] was set up
    with role [r2]; [nodeA] broadcasts with the filter [["r1"]].  [set] has
    not kept the role, so [nodeB] takes the broadcast for one of interest:
    it calls the discovery callback and answers with a [pong]. *)
Theorem C1_role_filter_not_applied :
  let bytes := RefJSON.stringify (VObj (stamped nodeA broadcast_r1)) in
  broadcast RefJSON.stringify
    (Some [("filter", VArr [VStr "r1"]); ("port", VNum 3024)]) nodeA =
    (Ok tt, nodeA,
     [logger_debug "looking for nodes:";
      client_send bytes 0 (Z.of_nat (String.length bytes))
        (VNum 3024) (VStr "255.255.255.255") (Data VUndef)]) /\
  get_own (config nodeB) "type" = VUndef /\
  isNodeOfInterest (VObj (json_props (stamped nodeA broadcast_r1))) nodeB =
    (Ok true, nodeB, []) /\
  on_message RefJSON.stringify RefJSON.parse inert bytes from_nodeA nodeB =
    (Ok tt, nodeB,
     [logger_debug "got BROADCAST:";
      call DEFAULTS.NO_OP (VObj (json_props (stamped nodeA broadcast_r1)))
        from_nodeA;
      pong_datagram RefJSON.stringify nodeB from_nodeA]).
Proof. vm_compute. split_and!; reflexivity. Qed.

(** C7, at the input where the code departs from it.  [set] is given a role
    (under the name the source reads, [type], and under the spec's, [role])
    and keeps neither: the configuration has the four fields [id], [port],
    [broadcastAddress] and [name] and nothing else, also after a second [set]
    with another role; no [set] ever changes [type] or [role]. *)
Theorem C7_set_drops_role :
  set [("name", VStr "node2"); ("type", VStr "r2"); ("role", VStr "r2")]
    (constructor "id-B") =
    (Ok nodeB, nodeB,
     [logger_debug "-- Setting configuration:";
      client_on "listening"; client_on "message";
      client_bind (VNum 3024)]) /\
  config nodeB =
    [("id", VStr "id-B"); ("port", VNum 3024);
     ("broadcastAddress", VStr "255.255.255.255"); ("name", VStr "node2")] /\
  config (snd (fst (set [("type", VStr "r3"); ("role", VStr "r3")] nodeB))) =
    [("id", VStr "id-B"); ("port", VNum 3024);
     ("broadcastAddress", VStr "255.255.255.255"); ("name", VNull)] /\
  (forall config' this,
     lookup_prop "type" (config (snd (fst (set config' this)))) =
       lookup_prop "type" (config this) /\
     lookup_prop "role" (config (snd (fst (set config' this)))) =
       lookup_prop "role" (config this)).
Proof.
  split_and!; try reflexivity.
  intros config' this. rewrite set_configures. simpl.
  destruct (configured_fields config' (config this)) as (_ & _ & _ & _ & H & _).
  by rewrite !H.
Qed.

(** What C7 says of defaults, of the transition and of the id holds: [set]
    returns normally, a node counts as set up after [set] and not before,
    [port] and [broadcastAddress] get the value given or else the default,
    and the id is the one given or else the one the node had, which
    [constructor] took from [uuid()]. *)
Lemma set_defaults_and_id config' this uuid :
  wasSetup (constructor uuid) = false /\
  get_own (config (constructor uuid)) "id" = VStr uuid /\
  exists this' t,
    set config' this = (Ok this', this', t) /\
    wasSetup this' = true /\
    get_own (config this') "id" =
      js_or (get_own config' "id") (get_own (config this) "id") /\
    get_own (config this') "port" =
      js_or (get_own config' "port") (VNum 3024) /\
    get_own (config this') "broadcastAddress" =
      js_or (get_own config' "broadcastAddress") (VStr "255.255.255.255") /\
    get_own (config this') "name" = js_or (get_own config' "name") VNull.
Proof.
  split_and!; [done|done|].
  eexists _, _. split; [apply set_configures|].
  split; [apply wasSetup_set|]. simpl.
  destruct (configured_fields config' (config this))
    as (H1 & H2 & H3 & H4 & _ & _).
  by rewrite H1, H2, H3, H4.
Qed.


(** ** The theorems at work on the two nodes *)

Lemma wf_config_nodeA : wf_value (VObj (config nodeA)).
Proof.
  apply wf_obj. split; [|by repeat constructor].
  apply (bool_decide_unpack _). vm_compute. exact I.
Qed.

Lemma wf_config_nodeB : wf_value (VObj (config nodeB)).
Proof.
  apply wf_obj. split; [|by repeat constructor].
  apply (bool_decide_unpack _). vm_compute. exact I.
Qed.

Lemma wf_ping_B : wf_value (VObj ping_B).
Proof.
  apply wf_obj. split.
  - apply (bool_decide_unpack _). vm_compute. exact I.
  - repeat apply Forall_cons_2; simpl; try done. apply wf_config_nodeA.
Qed.




Lemma C8_close_idempotent_witness :
  let closed := with_isClosed true (with_onNodeCallback 8%nat nodeA) in
  let ops :=
    [op_ping [("address", VStr "10.0.0.2")]; op_close (Fun 2%nat);
     op_datagram "not json" from_nodeA;
     op_datagram (RefJSON.stringify pong_B) from_nodeA;
     op_send [] (Data VUndef)] in
  let t :=
    [logger_debug "sending PING";
     client_send (RefJSON.stringify (VObj (stamped nodeA ping_B))) 0
       (Z.of_nat (String.length
                    (RefJSON.stringify (VObj (stamped nodeA ping_B)))))
       (VNum 3024) (VStr "10.0.0.2") (Data VUndef)] ++
    parse_failure_log ++
    [logger_debug "got PONG:"; call 8%nat pong_B from_nodeA] in
  close (Data VUndef) (with_onNodeCallback 8%nat nodeA) =
    (Ok tt, closed, [logger_debug "CLOSE"; client_close (Data VUndef)]) /\
  close (Fun 1%nat) closed = (Ok tt, closed, []) /\
  perform_all RefJSON.stringify RefJSON.parse (handlers RefJSON.stringify)
    ops closed = (Ok tt, closed, t) /\
  forallb (fun e => negb (is_close e)) t = true /\
  close_all [Data VUndef; Fun 1%nat; Fun 2%nat] nodeA =
    (Ok tt, with_isClosed true nodeA,
     [logger_debug "CLOSE"; client_close (Data VUndef)]).
Proof.
  intros closed ops t.
  assert (Hq : forall f message r,
            quiet isClosed (handlers RefJSON.stringify f message r)).
  { intros f message r.
    destruct f as [|[|[|[|[|[|[|[|[|[|f]]]]]]]]]]; try (by intros s Hs).
    - apply quiet_with_local, send_quiet.
    - apply close_quiet. }
  assert (Hrun : perform_all RefJSON.stringify RefJSON.parse
                   (handlers RefJSON.stringify) ops closed = (Ok tt, closed, t))
    by (vm_compute; reflexivity).
  destruct (C8_close_idempotent RefJSON.stringify RefJSON.parse
              (handlers RefJSON.stringify) Hq (with_onNodeCallback 8%nat nodeA)
              (Data VUndef) (Fun 1%nat) [Fun 1%nat; Fun 2%nat] ops)
    as [H1 _].
  destruct (C8_close_idempotent RefJSON.stringify RefJSON.parse
              (handlers RefJSON.stringify) Hq nodeA
              (Data VUndef) (Fun 1%nat) [Fun 1%nat; Fun 2%nat] ops)
    as [_ H2].
  destruct (H1 closed eq_refl) as (_ & Hlater & Hops).
  destruct (Hops closed t Hrun) as (_ & Hnone & _).
  split_and!.
  - reflexivity.
  - exact Hlater.
  - exact Hrun.
  - exact Hnone.
  - apply H2. reflexivity.
Defined.

Lemma C4_send_errors_witness :
  ping RefJSON.stringify [("address", VStr "0.0.0.0")] (constructor "id-A") =
    (Throw NOT_SET_UP, constructor "id-A", []) /\
  broadcast RefJSON.stringify None (constructor "id-A") =
    (Throw NOT_SET_UP, constructor "id-A", []) /\
  send RefJSON.stringify (Data VUndef) (constructor "id-A", hello) =
    (Throw NOT_SET_UP, (constructor "id-A", hello), []) /\
  ping RefJSON.stringify [("port", VNum 3024)] nodeA =
    (Throw MISSING_ADDRESS, nodeA, []) /\
  send RefJSON.stringify (Data VUndef) (nodeA, [("text", VStr "hey")]) =
    (Throw MISSING_TYPE, (nodeA, [("text", VStr "hey")]), []).
Proof.
  destruct (C4_send_errors RefJSON.stringify (constructor "id-A")
              [("address", VStr "0.0.0.0")] None hello (Data VUndef))
    as [H1 _].
  destruct (C4_send_errors RefJSON.stringify nodeA
              [("port", VNum 3024)] None [("text", VStr "hey")] (Data VUndef))
    as [_ H2].
  destruct (H1 eq_refl) as (Ha & Hb & Hc).
  destruct (H2 eq_refl) as (Hd & He).
  split_and!; [exact Ha|exact Hb|exact Hc|exact (Hd eq_refl)|exact (He eq_refl)].
Defined.

Lemma C10_off_index_unregistered_witness :
  off "hello" (Some 0%Z) nodeA = (Throw TypeError, nodeA, []) /\
  off "hello" (Some 1%Z) (with_events (delete "hello") listening) =
    (Throw TypeError, with_events (delete "hello") listening, []).
Proof.
  split.
  - apply (C10_off_index_unregistered nodeA "hello" 0); [discriminate|].
    reflexivity.
  - apply (proj2 (C10_off_index_unregistered listening "hello" 1
                    ltac:(discriminate)) _ eq_refl).
Defined.

Lemma C5_malformed_datagram_witness :
  RefJSON.parse "not json" = None /\
  on_message RefJSON.stringify RefJSON.parse inert "not json" from_nodeA
    nodeB =
    (Ok tt, nodeB, parse_failure_log) /\
  on_message RefJSON.stringify RefJSON.parse inert "null" from_nodeA nodeB =
    (Ok tt, nodeB, parse_failure_log) /\
  deliver RefJSON.stringify RefJSON.parse inert
    [("not json", from_nodeA);
     (RefJSON.stringify (VObj (stamped nodeA ping_B)), from_nodeA)] nodeB =
    (Ok tt, nodeB,
     parse_failure_log ++
     [logger_debug "got PING:";
      call DEFAULTS.NO_OP (VObj (json_props (stamped nodeA ping_B))) from_nodeA;
      pong_datagram RefJSON.stringify nodeB from_nodeA]).
Proof.
  assert (Hbad : undecodable RefJSON.parse "not json") by exact I.
  assert (Hnull : undecodable RefJSON.parse "null") by reflexivity.
  destruct (C5_malformed_datagram RefJSON.stringify RefJSON.parse inert nodeB
              "not json" from_nodeA
              [(RefJSON.stringify (VObj (stamped nodeA ping_B)), from_nodeA)]
              Hbad) as (H1 & H2 & _).
  destruct (C5_malformed_datagram RefJSON.stringify RefJSON.parse inert nodeB
              "null" from_nodeA [] Hnull) as (H3 & _).
  split_and!; [reflexivity|exact H1|exact H3|]. rewrite H2. reflexivity.
Defined.





(** ** What the dispatcher leaves alone *)

Create HintDb keeps.

Section Keeps.
Context {S T : Type} (view : S -> T).

Lemma keeps_ret {A} (a : A) : keeps view (ret a).
Proof. by intros s. Qed.

Lemma keeps_throw {A} (e : exn) : keeps view (@throw S A e).
Proof. by intros s. Qed.

Lemma keeps_lift {A} (r : result A) : keeps view (lift r).
Proof. by intros s. Qed.

Lemma keeps_read : keeps view read.
Proof. by intros s. Qed.

Lemma keeps_emit e : keeps view (emit e).
Proof. by intros s. Qed.

Lemma keeps_modify (f : S -> S) :
  (forall s, view (f s) = view s) -> keeps view (modify f).
Proof. intros Hf s. apply Hf. Qed.

Lemma keeps_bind {A B} (m : M S A) (k : A -> M S B) :
  keeps view m -> (forall a, keeps view (k a)) -> keeps view (bind m k).
Proof.
  intros Hm Hk s. unfold bind. specialize (Hm s).
  destruct (m s) as [[[a|e] s1] t1]; simpl in *; [|done].
  specialize (Hk a s1). destruct (k a s1) as [[r s2] t2]; simpl in *.
  congruence.
Qed.

Lemma keeps_try_catch {A} (m : M S A) (h : exn -> M S A) :
  keeps view m -> (forall e, keeps view (h e)) -> keeps view (try_catch m h).
Proof.
  intros Hm Hh s. unfold try_catch. specialize (Hm s).
  destruct (m s) as [[[a|e] s1] t1]; simpl in *; [done|].
  specialize (Hh e s1). destruct (h e s1) as [[r s2] t2]; simpl in *.
  congruence.
Qed.

Lemma keeps_if {A} (b : bool) (m1 m2 : M S A) :
  keeps view m1 -> keeps view m2 -> keeps view (if b then m1 else m2).
Proof. by destruct b. Qed.

Lemma keeps_option {A B} (o : option B) (m1 : B -> M S A) (m2 : M S A) :
  (forall b, keeps view (m1 b)) -> keeps view m2 ->
  keeps view (match o with Some b => m1 b | None => m2 end).
Proof. by destruct o. Qed.
End Keeps.

Lemma keeps_with_local {S T X A} (view : S -> T) (x : X) (m : M (S * X) A) :
  keeps (fun p => view (fst p)) m -> keeps view (with_local x m).
Proof.
  intros Hm s. unfold with_local. specialize (Hm (s, x)).
  by destruct (m (s, x)) as [[r [s1 x1]] t].
Qed.

#[export] Hint Resolve keeps_ret keeps_throw keeps_lift keeps_read keeps_emit
  keeps_modify keeps_bind keeps_try_catch keeps_if keeps_option
  keeps_with_local : keeps.
#[export] Hint Extern 1 (forall s, events _ = events s) =>
  (intros ?; reflexivity) : keeps.

Create HintDb only.

Section Only.
Context {S : Type} (p : effect -> bool).

Lemma only_ret {A} (a : A) : only p (@ret S A a).
Proof. by intros s. Qed.

Lemma only_throw {A} (e : exn) : only p (@throw S A e).
Proof. by intros s. Qed.

Lemma only_lift {A} (r : result A) : only p (@lift S A r).
Proof. by intros s. Qed.

Lemma only_read : only p (@read S).
Proof. by intros s. Qed.

Lemma only_emit e : p e = true -> only p (@emit S e).
Proof. intros He s. simpl. by rewrite He. Qed.

Lemma only_bind {A B} (m : M S A) (k : A -> M S B) :
  only p m -> (forall a, only p (k a)) -> only p (bind m k).
Proof.
  intros Hm Hk s. unfold bind. specialize (Hm s).
  destruct (m s) as [[[a|e] s1] t1]; simpl in *; [|done].
  specialize (Hk a s1). destruct (k a s1) as [[r s2] t2]; simpl in *.
  rewrite forallb_app. by rewrite Hm, Hk.
Qed.

Lemma only_try_catch {A} (m : M S A) (h : exn -> M S A) :
  only p m -> (forall e, only p (h e)) -> only p (try_catch m h).
Proof.
  intros Hm Hh s. unfold try_catch. specialize (Hm s).
  destruct (m s) as [[[a|e] s1] t1]; simpl in *; [done|].
  specialize (Hh e s1). destruct (h e s1) as [[r s2] t2]; simpl in *.
  rewrite forallb_app. by rewrite Hm, Hh.
Qed.

Lemma only_if {A} (b : bool) (m1 m2 : M S A) :
  only p m1 -> only p m2 -> only p (if b then m1 else m2).
Proof. by destruct b. Qed.

Lemma only_option {A B} (o : option B) (m1 : B -> M S A) (m2 : M S A) :
  (forall b, only p (m1 b)) -> only p m2 ->
  only p (match o with Some b => m1 b | None => m2 end).
Proof. by destruct o. Qed.

Lemma only_with_local {X A} (x : X) (m : M (S * X) A) :
  only p m -> only p (with_local x m).
Proof.
  intros Hm s. unfold with_local. specialize (Hm (s, x)).
  by destruct (m (s, x)) as [[r [s1 x1]] t].
Qed.
End Only.

#[export] Hint Resolve only_ret only_throw only_lift only_read only_emit
  only_bind only_try_catch only_if only_option only_with_local : only.
#[export] Hint Extern 1 (is_dispatch_effect _ = true) => reflexivity : only.
#[export] Hint Extern 1 (is_silent _ = true) => reflexivity : only.

Lemma sends_app t1 t2 : sends (t1 ++ t2) = (sends t1 + sends t2)%nat.
Proof. unfold sends. by rewrite List.filter_app, length_app. Qed.

Lemma sends_silent t : forallb is_silent t = true -> sends t = 0%nat.
Proof.
  unfold sends, is_silent. induction t as [|e t IH]; simpl; [done|].
  intros [He Ht]%andb_prop. destruct (is_send e); [done|]. auto.
Qed.

Section OneSend.
Context {S : Type}.

Lemma one_send_silent {A} (m : M S A) : only is_silent m -> one_send m.
Proof. intros Hm s. rewrite sends_silent by apply Hm. lia. Qed.

Lemma one_send_bind_l {A B} (m : M S A) (k : A -> M S B) :
  one_send m -> (forall a, only is_silent (k a)) -> one_send (bind m k).
Proof.
  intros Hm Hk s. unfold bind. specialize (Hm s).
  destruct (m s) as [[[a|e] s1] t1]; simpl in *; [|done].
  specialize (Hk a s1). destruct (k a s1) as [[r s2] t2]; simpl in *.
  rewrite sends_app, (sends_silent t2) by done. lia.
Qed.

Lemma one_send_bind_r {A B} (m : M S A) (k : A -> M S B) :
  only is_silent m -> (forall a, one_send (k a)) -> one_send (bind m k).
Proof.
  intros Hm Hk s. unfold bind. specialize (Hm s).
  destruct (m s) as [[[a|e] s1] t1]; simpl in *.
  - specialize (Hk a s1). destruct (k a s1) as [[r s2] t2]; simpl in *.
    rewrite sends_app, (sends_silent t1) by done. lia.
  - rewrite sends_silent by done. lia.
Qed.

Lemma one_send_try_catch {A} (m : M S A) (h : exn -> M S A) :
  one_send m -> (forall e, only is_silent (h e)) -> one_send (try_catch m h).
Proof.
  intros Hm Hh s. unfold try_catch. specialize (Hm s).
  destruct (m s) as [[[a|e] s1] t1]; simpl in *; [done|].
  specialize (Hh e s1). destruct (h e s1) as [[r s2] t2]; simpl in *.
  rewrite sends_app, (sends_silent t2) by done. lia.
Qed.

Lemma one_send_if {A} (b : bool) (m1 m2 : M S A) :
  one_send m1 -> one_send m2 -> one_send (if b then m1 else m2).
Proof. by destruct b. Qed.

Lemma one_send_with_local {X A} (x : X) (m : M (S * X) A) :
  one_send m -> one_send (with_local x m).
Proof.
  intros Hm s. unfold with_local. specialize (Hm (s, x)).
  by destruct (m (s, x)) as [[r [s1 x1]] t].
Qed.
End OneSend.

Section Footprint.
Variable JSON_stringify : value -> string.
Variable JSON_parse : string -> option value.

Local Abbreviation send := (send JSON_stringify).
Local Abbreviation broadcast := (broadcast JSON_stringify).
Local Abbreviation ping := (ping JSON_stringify).
Local Abbreviation pong := (pong JSON_stringify).

Lemma send_keeps {T} (view : UdpNode -> T) callback :
  keeps (fun p => view (fst p)) (send callback).
Proof.
  intros [this message]. unfold send.
  destruct (wasSetup this); simpl; [|done].
  by destruct (truthy (get_own message "type")).
Qed.

Lemma send_only callback : only is_dispatch_effect (send callback).
Proof.
  intros [this message]. unfold send.
  destruct (wasSetup this); simpl; [|done].
  by destruct (truthy (get_own message "type")).
Qed.

Lemma send_one callback : one_send (send callback).
Proof.
  intros [this message]. unfold send, sends.
  destruct (wasSetup this); simpl; [|lia].
  destruct (truthy (get_own message "type")); simpl; lia.
Qed.

Section View.
Context {T : Type} (view : UdpNode -> T).
Variable body : fn -> value -> rinfo -> M UdpNode unit.
Hypothesis body_keeps : forall f message r, keeps view (body f message r).

Local Abbreviation onPing := (onPing JSON_stringify body).
Local Abbreviation onBroadcast := (onBroadcast JSON_stringify body).
Local Abbreviation on_message := (on_message JSON_stringify JSON_parse body).
Local Abbreviation deliver := (deliver JSON_stringify JSON_parse body).

Lemma broadcast_keeps params : keeps view (broadcast params).
Proof. pose proof @send_keeps. unfold broadcast. eauto 30 with keeps. Qed.

Lemma ping_keeps params : keeps view (ping params).
Proof. pose proof @send_keeps. unfold ping. eauto 30 with keeps. Qed.

Lemma pong_keeps message r : keeps view (pong message r).
Proof. pose proof @send_keeps. unfold pong. eauto 30 with keeps. Qed.

Lemma isNodeOfInterest_keeps message : keeps view (isNodeOfInterest message).
Proof. unfold isNodeOfInterest. eauto 40 with keeps. Qed.

Lemma invoke_keeps f message r : keeps view (invoke body f message r).
Proof. unfold invoke. eauto with keeps. Qed.

Lemma onPing_keeps message r : keeps view (onPing message r).
Proof.
  pose proof pong_keeps. pose proof isNodeOfInterest_keeps.
  pose proof invoke_keeps. unfold onPing. eauto 30 with keeps.
Qed.

Lemma onBroadcast_keeps message r : keeps view (onBroadcast message r).
Proof.
  pose proof pong_keeps. pose proof isNodeOfInterest_keeps.
  pose proof invoke_keeps. unfold onBroadcast. eauto 30 with keeps.
Qed.

Lemma onPong_keeps message r : keeps view (onPong body message r).
Proof. pose proof invoke_keeps. unfold onPong. eauto 30 with keeps. Qed.

Lemma call_each_keeps l message r : keeps view (call_each body l message r).
Proof.
  pose proof invoke_keeps.
  induction l as [|[v|f] l IH]; simpl; eauto with keeps.
Qed.

Lemma onCustomEvent_keeps type message r :
  keeps view (onCustomEvent body type message r).
Proof. pose proof call_each_keeps. unfold onCustomEvent. eauto 30 with keeps. Qed.

Lemma on_message_keeps message r : keeps view (on_message message r).
Proof.
  pose proof onPing_keeps. pose proof onPong_keeps.
  pose proof onBroadcast_keeps. pose proof onCustomEvent_keeps.
  unfold on_message. eauto 40 with keeps.
Qed.

Lemma deliver_keeps datagrams : keeps view (deliver datagrams).
Proof.
  induction datagrams as [|[message r] rest IH]; simpl;
    eauto using on_message_keeps with keeps.
Qed.
End View.

Section Silent.
Local Abbreviation onPing := (onPing JSON_stringify inert).
Local Abbreviation onBroadcast := (onBroadcast JSON_stringify inert).
Local Abbreviation on_message := (on_message JSON_stringify JSON_parse inert).

Lemma isNodeOfInterest_silent message :
  only is_silent (isNodeOfInterest message).
Proof. unfold isNodeOfInterest. eauto 40 with only. Qed.

Lemma invoke_only p f message r :
  p (call f message r) = true -> only p (invoke inert f message r).
Proof. intros Hp. unfold invoke, inert. eauto with only. Qed.

Lemma call_each_silent l message r :
  only is_silent (call_each inert l message r).
Proof.
  induction l as [|[v|f] l IH]; simpl; eauto using invoke_only with only.
Qed.

Lemma onPong_silent message r : only is_silent (onPong inert message r).
Proof. unfold onPong. eauto 30 using invoke_only with only. Qed.

Lemma onCustomEvent_silent type message r :
  only is_silent (onCustomEvent inert type message r).
Proof. pose proof call_each_silent. unfold onCustomEvent. eauto 30 with only. Qed.

Lemma pong_one message r : one_send (pong message r).
Proof.
  unfold pong. apply one_send_bind_r; [apply only_read|].
  intros this. apply one_send_with_local, send_one.
Qed.

Lemma answer_one what message r :
  one_send (emit (logger_debug what) ;; this <- read ;;
            invoke inert (onNodeCallback this) message r ;; pong message r).
Proof.
  apply one_send_bind_r; [by apply only_emit|]. intros _.
  apply one_send_bind_r; [apply only_read|]. intros this.
  apply one_send_bind_r; [by apply invoke_only|]. intros _. apply pong_one.
Qed.

Lemma onPing_one message r : one_send (onPing message r).
Proof.
  unfold onPing.
  apply one_send_bind_r; [apply isNodeOfInterest_silent|]. intros interested.
  apply one_send_if; [apply one_send_silent, only_ret|apply answer_one].
Qed.

Lemma onBroadcast_one message r : one_send (onBroadcast message r).
Proof.
  unfold onBroadcast.
  apply one_send_bind_r; [apply isNodeOfInterest_silent|]. intros interested.
  apply one_send_if; [apply one_send_silent, only_ret|apply answer_one].
Qed.

Lemma on_message_one message r : one_send (on_message message r).
Proof.
  unfold on_message.
  apply one_send_bind_l;
    [|intros [|]; [apply only_ret|by apply only_emit]].
  apply one_send_try_catch; [|intros e; eauto with only].
  apply one_send_bind_r; [apply only_lift|]. intros v.
  apply one_send_bind_r; [apply only_lift|]. intros type.
  apply one_send_if;
    [apply one_send_bind_l; [apply onPing_one|intros; apply only_ret]|].
  apply one_send_if;
    [apply one_send_silent;
     pose proof onPong_silent; eauto with only|].
  apply one_send_if;
    [apply one_send_bind_l; [apply onBroadcast_one|intros; apply only_ret]|].
  apply one_send_silent. pose proof onCustomEvent_silent. eauto 20 with only.
Qed.

Lemma on_message_only message r :
  only is_dispatch_effect (on_message message r).
Proof.
  pose proof send_only.
  assert (forall f m r, only is_dispatch_effect (invoke inert f m r))
    by (intros; by apply invoke_only).
  assert (forall m r, only is_dispatch_effect (pong m r))
    by (intros; unfold pong; eauto 30 with only).
  assert (forall m, only is_dispatch_effect (isNodeOfInterest m))
    by (intros; unfold isNodeOfInterest; eauto 40 with only).
  assert (forall m r, only is_dispatch_effect (onPing m r))
    by (intros; unfold onPing; eauto 30 with only).
  assert (forall m r, only is_dispatch_effect (onBroadcast m r))
    by (intros; unfold onBroadcast; eauto 30 with only).
  assert (forall m r, only is_dispatch_effect (onPong inert m r))
    by (intros; unfold onPong; eauto 30 with only).
  assert (forall l m r, only is_dispatch_effect (call_each inert l m r))
    by (intros l m r0; induction l as [|[v|f] l IH]; simpl; eauto with only).
  assert (forall ty m r, only is_dispatch_effect (onCustomEvent inert ty m r))
    by (intros; unfold onCustomEvent; eauto 30 with only).
  unfold on_message. eauto 40 with only.
Qed.

(** X2.  Whatever the datagram and the state of the node, the listener
    does nothing but write to the log, call callbacks of the user and send:
    it never binds, registers on or closes the socket; and it sends one
    datagram at most, so an exchange cannot multiply. *)
Theorem listener_footprint (this : UdpNode) (bytes : string) (r : rinfo) :
  forallb is_dispatch_effect (snd (on_message bytes r this)) = true /\
  (sends (snd (on_message bytes r this)) <= 1)%nat.
Proof. split; [apply on_message_only|apply on_message_one]. Qed.
End Silent.

(** X1.  The node's own code never writes to the node while it handles a
    datagram: whatever part of the node the callbacks of the user leave as
    it is (configuration, listeners, discovery callback, closed flag, or all
    of it) is after a datagram, or a sequence of them, what it was before,
    whether the callbacks returned or threw.  [broadcast], [ping] and [send]
    change nothing of the node, whether they return or throw; [send] writes
    to the caller's message only. *)
Theorem node_unchanged {T : Type} (view : UdpNode -> T)
    (body : fn -> value -> rinfo -> M UdpNode unit) (this : UdpNode)
    (bytes : string) (r : rinfo) (datagrams : list (string * rinfo))
    (bparams : option obj) (params : obj) (message : obj)
    (callback : jsarg) :
  (forall f message r s, view (snd (fst (body f message r s))) = view s) ->
  view (snd (fst (on_message JSON_stringify JSON_parse body bytes r this))) =
    view this /\
  view (snd (fst (deliver JSON_stringify JSON_parse body datagrams this))) =
    view this /\
  snd (fst (broadcast bparams this)) = this /\
  snd (fst (ping params this)) = this /\
  fst (snd (fst (send callback (this, message)))) = this.
Proof.
  intros Hbody. split_and!.
  - by apply (on_message_keeps view body).
  - by apply (deliver_keeps view body).
  - apply (broadcast_keeps (fun s => s)).
  - apply (ping_keeps (fun s => s)).
  - apply (send_keeps (fun s => s) callback (this, message)).
Qed.

(** X3.  When the callbacks of the user leave the node as it is,
    datagrams are handled by a message listener independently of each
    other: the effects of a sequence of datagrams are the effects of each of
    them on the node as it was at the start, one after the other, and the
    node is unchanged at the end. *)
Theorem deliver_independent
    (body : fn -> value -> rinfo -> M UdpNode unit) (this : UdpNode)
    (datagrams more : list (string * rinfo)) :
  (forall f message r s, snd (fst (body f message r s)) = s) ->
  deliver JSON_stringify JSON_parse body datagrams this =
    (Ok tt, this, handled JSON_stringify JSON_parse body this datagrams) /\
  deliver JSON_stringify JSON_parse body (datagrams ++ more) this =
    (Ok tt, this,
     handled JSON_stringify JSON_parse body this datagrams ++
     handled JSON_stringify JSON_parse body this more).
Proof.
  intros Hbody.
  assert (H : forall ds,
            deliver JSON_stringify JSON_parse body ds this =
            (Ok tt, this, handled JSON_stringify JSON_parse body this ds)).
  { induction ds as [|[message r] rest IH]; [done|].
    simpl. unfold bind.
    pose proof (on_message_keeps (fun s => s) body Hbody message r this)
      as Hk.
    destruct (on_message_returns JSON_stringify JSON_parse body message r this)
      as (s1 & t1 & E).
    rewrite E in Hk |- *. simpl in Hk. subst s1. rewrite IH.
    unfold handled. simpl. by rewrite E. }
  split; [apply H|]. rewrite H. unfold handled.
  by rewrite map_app, concat_app.
Qed.
End Footprint.

(** ** Sending *)

Lemma js_or_truthy a b : truthy b = true -> truthy (js_or a b) = true.
Proof. intros Hb. unfold js_or. by destruct (truthy a) eqn:E. Qed.

Lemma js_or_left a b : truthy a = true -> js_or a b = a.
Proof. intros Ha. unfold js_or. by rewrite Ha. Qed.


Lemma lookup_stamped_from this message :
  lookup_prop "from" (stamped this message) =
  Some (get_own (config this) "id").
Proof.
  unfold stamped. rewrite !lookup_set_prop_ne by done.
  apply lookup_set_prop_eq.
Qed.



Lemma lookup_stamped_other this message k :
  k ≠ "from" -> k ≠ "port" -> k ≠ "address" ->
  lookup_prop k (stamped this message) = lookup_prop k message.
Proof. intros. unfold stamped. by rewrite !lookup_set_prop_ne. Qed.


Section Requests.
Variable JSON_stringify : value -> string.

Local Abbreviation send := (send JSON_stringify).
Local Abbreviation broadcast := (broadcast JSON_stringify).
Local Abbreviation ping := (ping JSON_stringify).

(** The calls of [broadcast] and of [ping], the socket taking them. *)
Lemma broadcast_calls (this : UdpNode) (params : option obj) :
  wasSetup this = true ->
  broadcast params this =
  (Ok tt, this,
   [logger_debug "looking for nodes:";
    client_send
      (JSON_stringify
         (VObj [("type", VStr "broadcast"); ("node", VObj (config this));
                ("filter", from_option (fun p => get_own p "filter") VUndef
                             params);
                ("data", from_option (fun p => get_own p "data") VUndef
                           params);
                ("port",
                 js_or (from_option (fun p => get_own p "port") VUndef params)
                   (js_or (get_own (config this) "port") (VNum 3024)));
                ("address",
                 js_or
                   (js_or (from_option (fun p => get_own p "address") VUndef
                             params)
                      (get_own (config this) "broadcastAddress"))
                   (VStr "255.255.255.255"));
                ("from", get_own (config this) "id")]))
      0
      (Z.of_nat (String.length
         (JSON_stringify
            (VObj [("type", VStr "broadcast"); ("node", VObj (config this));
                   ("filter", from_option (fun p => get_own p "filter") VUndef
                                params);
                   ("data", from_option (fun p => get_own p "data") VUndef
                              params);
                   ("port",
                    js_or
                      (from_option (fun p => get_own p "port") VUndef params)
                      (js_or (get_own (config this) "port") (VNum 3024)));
                   ("address",
                    js_or
                      (js_or (from_option (fun p => get_own p "address")
                                VUndef params)
                         (get_own (config this) "broadcastAddress"))
                      (VStr "255.255.255.255"));
                   ("from", get_own (config this) "id")]))))
      (js_or (from_option (fun p => get_own p "port") VUndef params)
         (js_or (get_own (config this) "port") (VNum 3024)))
      (js_or
         (js_or (from_option (fun p => get_own p "address") VUndef params)
            (get_own (config this) "broadcastAddress"))
         (VStr "255.255.255.255"))
      (Data VUndef)]).
Proof.
  intros Hs.
  unfold broadcast, bind, read, emit, with_local. simpl.
  rewrite Hs. simpl. rewrite send_ok by done.
  unfold stamped, get_own. simpl.
  rewrite (js_or_left (js_or _ (js_or _ _)))
    by (apply js_or_truthy; by apply js_or_truthy).
  done.
Qed.

Lemma ping_calls (this : UdpNode) (params : obj) :
  wasSetup this = true ->
  truthy (get_own params "address") = true ->
  ping params this =
  (Ok tt, this,
   [logger_debug "sending PING";
    client_send
      (JSON_stringify
         (VObj [("type", VStr "ping"); ("node", VObj (config this));
                ("data", match get_own params "data" with
                         | VUndef => VNull
                         | d => d
                         end);
                ("port", js_or (get_own params "port") (VNum 3024));
                ("address", get_own params "address");
                ("from", get_own (config this) "id")]))
      0
      (Z.of_nat (String.length
         (JSON_stringify
            (VObj [("type", VStr "ping"); ("node", VObj (config this));
                   ("data", match get_own params "data" with
                            | VUndef => VNull
                            | d => d
                            end);
                   ("port", js_or (get_own params "port") (VNum 3024));
                   ("address", get_own params "address");
                   ("from", get_own (config this) "id")]))))
      (js_or (get_own params "port") (VNum 3024))
      (get_own params "address") (Data VUndef)]).
Proof.
  intros Hs Ha.
  unfold ping, bind, read, emit, with_local. simpl.
  rewrite Hs, Ha. simpl. rewrite send_ok by done.
  unfold stamped, get_own in *. simpl.
  rewrite (js_or_left (js_or _ _)) by by apply js_or_truthy.
  rewrite (js_or_left (default VUndef (lookup_prop "address" params)))
    by done.
  done.
Qed.

(** X4.  On a node that was set up, [broadcast] writes one log entry and
    calls [client.send] once, and leaves the node as it is.  It hands over
    the text of the envelope
    [{type: 'broadcast', node, filter, data, port, address, from}] with the
    node's configuration and id, the number of characters of that text, the
    port given, or else the port of the node's configuration, or else 3024,
    and the address given, or else the broadcast address of the
    configuration, or else 255.255.255.255; a value given as [0], [''] or
    [null] counts as not given.  [broadcast] returns when the socket accepts
    the call; when the text is ASCII it is the datagram. *)
Theorem broadcast_sends (this : UdpNode) (params : option obj) :
  wasSetup this = true ->
  let given k := from_option (fun p => get_own p k) VUndef params in
  let port :=
    js_or (given "port")
      (js_or (get_own (config this) "port") (VNum 3024)) in
  let address :=
    js_or (js_or (given "address") (get_own (config this) "broadcastAddress"))
      (VStr "255.255.255.255") in
  let text :=
    JSON_stringify
      (VObj [("type", VStr "broadcast"); ("node", VObj (config this));
             ("filter", given "filter"); ("data", given "data");
             ("port", port); ("address", address);
             ("from", get_own (config this) "id")]) in
  snd (broadcast params this) =
    [logger_debug "looking for nodes:";
     client_send text 0 (Z.of_nat (String.length text)) port address
       (Data VUndef)] /\
  snd (fst (broadcast params this)) = this /\
  (client_accepts this port address = true ->
     fst (fst (broadcast params this)) = Ok tt) /\
  (ascii_only text = true ->
     transmitted text 0 (Z.of_nat (String.length text)) = text).
Proof.
  intros Hs. cbv zeta. rewrite broadcast_calls by done.
  split_and!; [done|done|done|apply transmitted_ascii].
Qed.

(** X5.  On a node that was set up, [ping] to an address writes one log
    entry and calls [client.send] once, and leaves the node as it is.  It
    hands over the text of the envelope
    [{type: 'ping', node, data, port, address, from}], the number of
    characters of that text, the port given or else 3024, never the port of
    the node's own configuration, and the address; data left out is sent as
    [null].  [ping] returns when the socket accepts the call; when the text
    is ASCII it is the datagram. *)
Theorem ping_sends (this : UdpNode) (params : obj) :
  wasSetup this = true ->
  truthy (get_own params "address") = true ->
  let port := js_or (get_own params "port") (VNum 3024) in
  let data :=
    match get_own params "data" with
    | VUndef => VNull
    | d => d
    end in
  let text :=
    JSON_stringify
      (VObj [("type", VStr "ping"); ("node", VObj (config this));
             ("data", data); ("port", port);
             ("address", get_own params "address");
             ("from", get_own (config this) "id")]) in
  snd (ping params this) =
    [logger_debug "sending PING";
     client_send text 0 (Z.of_nat (String.length text)) port
       (get_own params "address") (Data VUndef)] /\
  snd (fst (ping params this)) = this /\
  (client_accepts this port (get_own params "address") = true ->
     fst (fst (ping params this)) = Ok tt) /\
  (ascii_only text = true ->
     transmitted text 0 (Z.of_nat (String.length text)) = text).
Proof.
  intros Hs Ha. cbv zeta. rewrite ping_calls by done.
  split_and!; [done|done|done|apply transmitted_ascii].
Qed.

End Requests.

(** ** Configuration *)

Lemma configured_keys_fresh config' uuid :
  Object_keys (configured config' [("id", VStr uuid)]) = configured_keys.
Proof. done. Qed.

Lemma configured_keys_again config' c :
  Object_keys c = configured_keys ->
  Object_keys (configured config' c) = configured_keys.
Proof.
  unfold Object_keys, configured_keys.
  destruct c as [|[k1 v1] [|[k2 v2] [|[k3 v3] [|[k4 v4] [|]]]]];
    simpl; intros H; simplify_eq. done.
Qed.

(** X7.  A node is born with the configuration [{id}] and leaves it for
    good with the first [set]: from then on the configuration has exactly the
    keys [id], [port], [broadcastAddress] and [name], in this order, whatever
    [set] is given and however often it is called; [port] and
    [broadcastAddress] are never falsy and [name] is never [undefined].
    [wasSetup] tells the two states apart. *)
Theorem config_shape (this : UdpNode) :
  reachable_config (config this) ->
  (wasSetup this = false /\ exists uuid, config this = [("id", VStr uuid)]) \/
  (wasSetup this = true /\
   Object_keys (config this) = configured_keys /\
   truthy (get_own (config this) "port") = true /\
   truthy (get_own (config this) "broadcastAddress") = true /\
   get_own (config this) "name" ≠ VUndef).
Proof.
  unfold wasSetup. generalize (config this). clear this.
  induction 1 as [uuid|config' c Hc IH].
  - left. split; [done|]. by exists uuid.
  - right.
    destruct (configured_fields config' c) as (_ & Hp & Ha & Hn & _ & Hlen).
    split; [by apply Nat.ltb_lt|]. split_and!.
    + destruct IH as [[_ [uuid ->]]|(_ & Hk & _)].
      * apply configured_keys_fresh.
      * by apply configured_keys_again.
    + rewrite Hp. by apply js_or_truthy.
    + rewrite Ha. by apply js_or_truthy.
    + rewrite Hn. unfold js_or.
      destruct (truthy (get_own config' "name")) eqn:E; [|done].
      intros Hu. by rewrite Hu in E.
Qed.

(** X8.  A second [set] replaces what the first one wrote, apart from the
    id: after it [port], [broadcastAddress] and [name] are those of the
    second call, or the defaults 3024, 255.255.255.255 and [null] where it
    gives none, also when the first call gave one; the id is kept unless the
    second call gives one.  Each call registers the two socket listeners and
    calls [client.bind] again, after it has written the configuration; the
    listeners, the discovery callback and the closed flag are left alone. *)
Theorem set_again (this : UdpNode) (first second : obj) :
  exists this1 this2,
    snd (fst (set first this)) = this1 /\
    snd (set first this) =
      [logger_debug "-- Setting configuration:";
       client_on "listening"; client_on "message";
       client_bind (js_or (get_own first "port") (VNum 3024))] /\
    snd (fst (set second this1)) = this2 /\
    snd (set second this1) =
      [logger_debug "-- Setting configuration:";
       client_on "listening"; client_on "message";
       client_bind (js_or (get_own second "port") (VNum 3024))] /\
    get_own (config this2) "id" =
      js_or (get_own second "id")
        (js_or (get_own first "id") (get_own (config this) "id")) /\
    get_own (config this2) "port" =
      js_or (get_own second "port") (VNum 3024) /\
    get_own (config this2) "broadcastAddress" =
      js_or (get_own second "broadcastAddress") (VStr "255.255.255.255") /\
    get_own (config this2) "name" = js_or (get_own second "name") VNull /\
    events this2 = events this /\
    onNodeCallback this2 = onNodeCallback this /\
    isClosed this2 = isClosed this.
Proof.
  exists (with_config (configured first) this),
    (with_config (configured second) (with_config (configured first) this)).
  rewrite !set_configures. simpl.
  destruct (configured_fields second (configured first (config this)))
    as (H1 & H2 & H3 & H4 & _ & _).
  destruct (configured_fields first (config this)) as (H1' & _).
  rewrite H1, H2, H3, H4, H1'. done.
Qed.

Lemma append_empty_r (s : string) : s +:+ "" = s.
Proof.
  induction s as [|c s IH]; [done|].
  change (String c (s +:+ "") = String c s). by rewrite IH.
Qed.

(** X9.  The label [toSimpleName] gives a node built by [constructor]
    and [set] is the name [set] was given, printed as a string, and the
    word [null] when it was given none; it never has a role in parentheses.
    Before [set] it is the word [undefined]. *)
Theorem simple_name (this : UdpNode) (config' : obj) (uuid : string) :
  reachable_config (config this) ->
  toSimpleName (with_config (configured config') this) =
    to_string (js_or (get_own config' "name") VNull) /\
  toSimpleName (constructor uuid) = "undefined".
Proof.
  intros Hr. split; [|done].
  destruct (reachable_no_type _ (reach_set config' _ Hr)) as [Ht _].
  destruct (configured_fields config' (config this))
    as (_ & _ & _ & Hn & _ & _).
  unfold toSimpleName. simpl. rewrite Hn.
  unfold get_own at 2. rewrite Ht. simpl. apply append_empty_r.
Qed.

(** ** The discovery callback *)

Section Callback.
Variable JSON_stringify : value -> string.
Variable JSON_parse : string -> option value.

Local Abbreviation on_message := (on_message JSON_stringify JSON_parse inert).

(** X10.  [onNode] replaces the discovery callback: of two registrations
    only the later one is called when a [pong] arrives, and [onNode] changes
    nothing else of the node. *)
Theorem onNode_last_wins (this : UdpNode) (f g : fn) (bytes : string)
    (message : value) (r : rinfo) :
  JSON_parse bytes = Some message ->
  get message "type" = Ok (VStr "pong") ->
  exists this2,
    (onNode f ;; onNode g) this = (Ok tt, this2, []) /\
    this2 = with_onNodeCallback g this /\
    on_message bytes r this2 =
      (Ok tt, this2, [logger_debug "got PONG:"; call g message r]).
Proof.
  intros Hp Ht. eexists. split_and!; [done|done|].
  unfold on_message, try_catch, bind, lift.
  by rewrite Hp, Ht.
Qed.
End Callback.

(** ** Edges of the registry *)

Lemma with_events_id g this :
  g (events this) = events this -> with_events g this = this.
Proof. intros H. destruct this. unfold with_events. simpl in *. by rewrite H. Qed.

(** X11.  [off(type)] for a type that has no listeners returns normally
    and changes nothing; and in any state a second [off(type)] changes
    nothing more. *)
Theorem off_unregistered (this : UdpNode) (type : string) :
  type ≠ "" ->
  (events this !! type = None -> off type None this = (Ok tt, this, [])) /\
  (forall this1, this1 = snd (fst (off type None this)) ->
     off type None this1 = (Ok tt, this1, [])).
Proof.
  intros Hne.
  assert (H : forall n, events n !! type = None ->
                off type None n = (Ok tt, n, [])).
  { intros n Hn. unfold off. destruct (String.eqb_spec type ""); [done|].
    unfold modify. by rewrite with_events_id by by apply delete_id. }
  split; [apply H|]. intros this1 ->. apply H.
  unfold off. destruct (String.eqb_spec type ""); [done|].
  simpl. apply lookup_delete_eq.
Qed.

Lemma off_index type i listeners this :
  type ≠ "" -> events this !! type = Some listeners ->
  off type (Some i) this =
  (Ok tt, with_events (<[type := splice1 listeners i]>) this, []).
Proof.
  intros Hne Hl. unfold off. destruct (String.eqb_spec type ""); [done|].
  unfold bind, read, modify. simpl. by rewrite Hl.
Qed.

(** X12.  [off(type, index)] with an index outside the list: at or past
    the end it removes nothing, and reports nothing; a negative index counts
    from the end, so [-1] removes the listener registered last; an index
    below minus the length removes the first listener. *)
Theorem off_index_edges (this : UdpNode) (type : string) (i : Z)
    (listeners : list jsarg) :
  type ≠ "" ->
  events this !! type = Some listeners ->
  ((Z.of_nat (length listeners) <= i)%Z ->
     off type (Some i) this = (Ok tt, this, [])) /\
  ((- Z.of_nat (length listeners) <= i < 0)%Z ->
     off type (Some i) this =
     (Ok tt,
      with_events
        (<[type := delete (Z.to_nat (Z.of_nat (length listeners) + i))
                     listeners]>) this,
      [])) /\
  ((i < - Z.of_nat (length listeners))%Z ->
     off type (Some i) this =
     (Ok tt, with_events (<[type := drop 1 listeners]>) this, [])).
Proof.
  intros Hne Hl. rewrite (off_index _ _ _ _ Hne Hl). split_and!.
  - intros Hi. rewrite splice1_past_end by done.
    by rewrite with_events_id by by apply insert_id.
  - intros Hi. by rewrite splice1_from_end.
  - intros Hi. unfold splice1. destruct (Z.ltb_spec i 0); [|lia].
    rewrite Z.max_r by lia. simpl. by destruct listeners.
Qed.

(** X13.  For a type that is not empty and not a name objects inherit
    from [Object.prototype], [off(type, -1)] undoes the [on(type, handler)]
    before it: the listeners of [type] are again those from before the
    registration, in their order.  The entry of [type] stays, with an empty
    list if there were none. *)
Theorem on_off_last (this : UdpNode) (type : string) (f : fn) :
  type ≠ "" ->
  inherited type = false ->
  forall this1, this1 = snd (fst (on type (Fun f) this)) ->
    off type (Some (-1)%Z) this1 =
    (Ok tt, with_events (<[type := default [] (events this !! type)]>) this,
     []).
Proof.
  intros Hne Hin this1 ->. rewrite on_appends by done. simpl.
  rewrite (off_index type (-1) (default [] (events this !! type) ++ [Fun f]))
    by (done || (simpl; apply lookup_insert_eq)).
  rewrite splice1_from_end by (rewrite length_app; simpl; lia).
  rewrite length_app. simpl.
  replace (Z.to_nat (Z.of_nat (length (default [] (events this !! type)) + 1)
                     + -1))
    with (length (default [] (events this !! type))) by lia.
  rewrite delete_middle, app_nil_r.
  unfold with_events. simpl. by rewrite insert_insert_eq.
Qed.

(** ** The interest filter, rule by rule *)

(** X14.  [isNodeOfInterest] reads the message and the configuration and
    changes nothing.  For a filter that is absent or a list of role names,
    against a [config.type] that is unset or a name, it decides in this
    order: a message from the node itself is of no interest; a message
    without filter, or with an empty one, is; a node without [config.type]
    takes every message; otherwise the message is of interest exactly when
    [config.type] is in the filter. *)
Theorem interest_by_rules (message : obj) (this : UdpNode)
    (filter : option (list string)) (role : option string) :
  get_own message "filter" = filter_value filter ->
  get_own (config this) "type" = role_value role ->
  isNodeOfInterest (VObj message) this =
  (Ok (if strict_eq (get_own message "from") (get_own (config this) "id")
       then false
       else match filter, role with
            | None, _ | Some [], _ => true
            | Some _, None => true
            | Some roles, Some r => bool_decide (r ∈ roles)
            end),
   this, []).
Proof.
  intros Hf Hr. rewrite (isNodeOfInterest_rules message this filter role Hf Hr).
  unfold interest_rules. destruct (strict_eq _ _); [done|].
  by destruct filter as [[|]|], role.
Qed.

(** ** The built-in types and the registry *)

Create HintDb ignores.

Section Ignores.
Context (g : gmap string (list jsarg) -> gmap string (list jsarg)).

Lemma ignores_ret {A} (a : A) : ignores_events g (ret a).
Proof. intros s. by eexists _, _. Qed.

Lemma ignores_throw {A} (e : exn) : ignores_events g (@throw _ A e).
Proof. intros s. by eexists _, _. Qed.

Lemma ignores_lift {A} (r : result A) : ignores_events g (lift r).
Proof. intros s. by eexists _, _. Qed.

Lemma ignores_emit e : ignores_events g (emit e).
Proof. intros s. by eexists _, _. Qed.

Lemma ignores_bind {A B} (m : M UdpNode A) (k : A -> M UdpNode B) :
  ignores_events g m -> (forall a, ignores_events g (k a)) ->
  ignores_events g (bind m k).
Proof.
  intros Hm Hk s. unfold bind.
  destruct (Hm s) as ([a|e] & t1 & -> & ->); [|by eexists _, _].
  destruct (Hk a s) as (r & t2 & -> & ->). by eexists _, _.
Qed.

(** The state that [read] hands over is used for its configuration and its
    discovery callback only. *)
Lemma ignores_read_bind {A} (k : UdpNode -> M UdpNode A) :
  (forall s, k (with_events g s) = k s) ->
  (forall s, ignores_events g (k s)) ->
  ignores_events g (bind read k).
Proof.
  intros Hg Hk s. unfold bind, read. rewrite Hg.
  destruct (Hk s s) as (r & t & -> & ->). eexists _, _.
  by rewrite !app_nil_l.
Qed.

Lemma ignores_lift_bind {A B} (r : result A) (k : A -> M UdpNode B) :
  (forall a, r = Ok a -> ignores_events g (k a)) ->
  ignores_events g (bind (lift r) k).
Proof.
  intros Hk s. unfold bind, lift. destruct r as [a|e]; [|by eexists _, _].
  destruct (Hk a eq_refl s) as (r & t & -> & ->). by eexists _, _.
Qed.

Lemma ignores_try_catch {A} (m : M UdpNode A) (h : exn -> M UdpNode A) :
  ignores_events g m -> (forall e, ignores_events g (h e)) ->
  ignores_events g (try_catch m h).
Proof.
  intros Hm Hh s. unfold try_catch.
  destruct (Hm s) as ([a|e] & t1 & -> & ->); [by eexists _, _|].
  destruct (Hh e s) as (r & t2 & -> & ->). by eexists _, _.
Qed.

Lemma ignores_if {A} (b : bool) (m1 m2 : M UdpNode A) :
  ignores_events g m1 -> ignores_events g m2 ->
  ignores_events g (if b then m1 else m2).
Proof. by destruct b. Qed.
End Ignores.

#[export] Hint Resolve ignores_ret ignores_throw ignores_lift ignores_emit
  ignores_bind ignores_try_catch ignores_if : ignores.
#[export] Hint Extern 2 (ignores_events _ (bind read _)) =>
  (apply ignores_read_bind; [intros ?; reflexivity|intros ?]) : ignores.

Section Builtin.
Variable JSON_stringify : value -> string.
Variable JSON_parse : string -> option value.
Context (g : gmap string (list jsarg) -> gmap string (list jsarg)).

Local Abbreviation send := (send JSON_stringify).
Local Abbreviation pong := (pong JSON_stringify).
Local Abbreviation onPing := (onPing JSON_stringify inert).
Local Abbreviation onBroadcast := (onBroadcast JSON_stringify inert).
Local Abbreviation onPong := (onPong inert).
Local Abbreviation on_message := (on_message JSON_stringify JSON_parse inert).

Lemma send_ignores callback (message : obj) :
  ignores_events g (with_local message (send callback)).
Proof.
  intros this. unfold with_local, send.
  change (wasSetup (with_events g this)) with (wasSetup this).
  destruct (wasSetup this); simpl; [|by eexists _, _].
  destruct (truthy (get_own message "type")); simpl; by eexists _, _.
Qed.

Lemma pong_ignores message r : ignores_events g (pong message r).
Proof. pose proof send_ignores. unfold pong. eauto with ignores. Qed.

Lemma isNodeOfInterest_ignores message :
  ignores_events g (isNodeOfInterest message).
Proof. unfold isNodeOfInterest. eauto 40 with ignores. Qed.

Lemma invoke_ignores f message r :
  ignores_events g (invoke inert f message r).
Proof. unfold invoke, inert. eauto with ignores. Qed.

Lemma onPing_ignores message r : ignores_events g (onPing message r).
Proof.
  pose proof pong_ignores. pose proof isNodeOfInterest_ignores.
  pose proof invoke_ignores. unfold onPing. eauto 30 with ignores.
Qed.

Lemma onBroadcast_ignores message r :
  ignores_events g (onBroadcast message r).
Proof.
  pose proof pong_ignores. pose proof isNodeOfInterest_ignores.
  pose proof invoke_ignores. unfold onBroadcast. eauto 30 with ignores.
Qed.

Lemma onPong_ignores message r : ignores_events g (onPong message r).
Proof. pose proof invoke_ignores. unfold onPong. eauto 30 with ignores. Qed.

(** X15.  A message of type [ping], [pong] or [broadcast] is handled
    without a look at the registry of listeners: whatever was registered
    with [on] or removed with [off], also under these three names, the
    listener does the same, and it calls none of the registered handlers. *)
Theorem builtin_ignores_registry (this : UdpNode) (bytes : string)
    (message type : value) (r : rinfo) :
  JSON_parse bytes = Some message ->
  get message "type" = Ok type ->
  is_builtin type = true ->
  exists t,
    on_message bytes r this = (Ok tt, this, t) /\
    on_message bytes r (with_events g this) =
      (Ok tt, with_events g this, t).
Proof.
  intros Hp Ht Hb.
  assert (H : ignores_events g (on_message bytes r)).
  { pose proof onPing_ignores. pose proof onBroadcast_ignores.
    pose proof onPong_ignores.
    unfold on_message. rewrite Hp.
    apply ignores_bind; [|intros [|]; eauto with ignores].
    apply ignores_try_catch; [|eauto with ignores].
    apply ignores_lift_bind. intros ? [= <-]. rewrite Ht.
    apply ignores_lift_bind. intros ? [= <-].
    unfold is_builtin in Hb.
    destruct (strict_eq type (VStr "ping")); [eauto with ignores|].
    destruct (strict_eq type (VStr "pong")); [eauto with ignores|].
    destruct (strict_eq type (VStr "broadcast")); [eauto with ignores|].
    done. }
  destruct (H this) as (res & t & E1 & E2).
  destruct (on_message_returns JSON_stringify JSON_parse inert bytes r this)
    as (s' & t' & E). rewrite E in E1. simplify_eq. by exists t.
Qed.
End Builtin.

(** ** An exchange between two nodes *)

Lemma get_json_props k o :
  NoDup (map fst o) ->
  get_own (json_props o) k = default VUndef (lookup_prop k o ≫= to_json).
Proof. intros Hnd. unfold get_own. by rewrite lookup_json_props. Qed.

Lemma by_value_json v :
  by_value v = true -> strict_eq (default VUndef (to_json v)) v = true.
Proof.
  destruct v as [| |b|n|s|l|o]; simpl; try done; intros _.
  - by destruct b.
  - apply Z.eqb_refl.
  - apply String.eqb_refl.
Qed.

Lemma isNodeOfInterest_own message this :
  strict_eq (get_own message "from") (get_own (config this) "id") = true ->
  isNodeOfInterest (VObj message) this = (Ok false, this, []).
Proof.
  intros H. unfold isNodeOfInterest, bind, read, lift, ret. simpl.
  by rewrite H.
Qed.

Lemma isNodeOfInterest_unfiltered message this :
  strict_eq (get_own message "from") (get_own (config this) "id") = false ->
  truthy (get_own message "filter") = false ->
  isNodeOfInterest (VObj message) this = (Ok true, this, []).
Proof.
  intros H Hf. unfold isNodeOfInterest, bind, read, lift, ret. simpl.
  by rewrite H, Hf.
Qed.

Lemma wf_pong_envelope this r :
  wf_value (VObj (config this)) -> wf_value (VObj (pong_envelope this r)).
Proof.
  intros Hc. apply wf_obj. split.
  - apply (bool_decide_unpack _). vm_compute. exact I.
  - unfold pong_envelope. repeat apply Forall_cons_2; simpl; try done.
    by apply wf_get_own.
Qed.

Section Exchange.
Variable JSON_stringify : value -> string.
Variable JSON_parse : string -> option value.
Variable body : fn -> value -> rinfo -> M UdpNode unit.

Local Abbreviation send := (send JSON_stringify).
Local Abbreviation broadcast := (broadcast JSON_stringify).
Local Abbreviation on_message := (on_message JSON_stringify JSON_parse body).
Local Abbreviation pong_datagram := (pong_datagram JSON_stringify).

Lemma on_message_pong bytes message r this this1 t :
  JSON_parse bytes = Some message ->
  get message "type" = Ok (VStr "pong") ->
  body (onNodeCallback this) message r this = (Ok tt, this1, t) ->
  on_message bytes r this =
  (Ok tt, this1,
   [logger_debug "got PONG:"; call (onNodeCallback this) message r] ++ t).
Proof.
  intros Hp Ht Hb. unfold on_message, try_catch. unfold bind at 1 2 3.
  unfold lift. rewrite Hp, Ht. simpl.
  unfold onPong, invoke, bind, emit, read. rewrite Hb. simpl.
  by rewrite !app_nil_r.
Qed.

Lemma on_message_uninterested bytes message r this :
  JSON_parse bytes = Some message ->
  get message "type" = Ok (VStr "ping") \/
  get message "type" = Ok (VStr "broadcast") ->
  isNodeOfInterest message this = (Ok false, this, []) ->
  on_message bytes r this = (Ok tt, this, []).
Proof.
  intros Hp [Ht|Ht] Hi.
  - by rewrite (on_message_request _ _ _ _ _ _ _ "got PING:" Hp
                  (or_introl (conj Ht eq_refl)) false Hi).
  - by rewrite (on_message_request _ _ _ _ _ _ _ "got BROADCAST:" Hp
                  (or_intror (conj Ht eq_refl)) false Hi).
Qed.

Lemma on_message_answers bytes message r this t :
  wasSetup this = true -> port r ≠ 0%Z -> address r ≠ "" ->
  JSON_parse bytes = Some message ->
  get message "type" = Ok (VStr "broadcast") ->
  isNodeOfInterest message this = (Ok true, this, []) ->
  body (onNodeCallback this) message r this = (Ok tt, this, t) ->
  on_message bytes r this =
  (Ok tt, this,
   [logger_debug "got BROADCAST:"; call (onNodeCallback this) message r] ++
   t ++ [pong_datagram this r]).
Proof.
  intros Hs Hport Ha Hp Ht Hi Hb.
  rewrite (on_message_request _ _ _ _ _ _ _ "got BROADCAST:" Hp
             (or_intror (conj Ht eq_refl)) true Hi).
  by rewrite (answer_returns _ _ _ _ _ _ _ _ Hb) by done.
Qed.

Lemma broadcast_stamped this params :
  wasSetup this = true ->
  let given k := from_option (fun p => get_own p k) VUndef params in
  let message :=
    stamped this
      [("type", VStr "broadcast"); ("node", VObj (config this));
       ("filter", given "filter"); ("data", given "data");
       ("port", js_or (given "port")
                  (js_or (get_own (config this) "port") (VNum 3024)));
       ("address",
        js_or (given "address") (get_own (config this) "broadcastAddress"))] in
  broadcast params this =
  (Ok tt, this,
   [logger_debug "looking for nodes:";
    client_send (JSON_stringify (VObj message)) 0
      (Z.of_nat (String.length (JSON_stringify (VObj message))))
      (get_own message "port") (get_own message "address") (Data VUndef)]).
Proof.
  intros Hs. cbv zeta.
  unfold broadcast, bind, read, emit, with_local. simpl.
  rewrite Hs. simpl. by rewrite send_ok by done.
Qed.

(** The platform's codec reads back what it wrote. *)
Hypothesis JSON_roundtrip :
  forall v j, wf_value v -> to_json v = Some j ->
              JSON_parse (JSON_stringify v) = Some j.

Lemma parse_sent this message :
  wf_value (VObj (config this)) -> wf_value (VObj message) ->
  JSON_parse (JSON_stringify (VObj (stamped this message))) =
  Some (VObj (json_props (stamped this message))).
Proof.
  intros Hc Hm. apply JSON_roundtrip; [by apply wf_stamped|apply to_json_obj].
Qed.

Lemma get_sent this message k :
  wf_value (VObj (config this)) -> wf_value (VObj message) ->
  get_own (json_props (stamped this message)) k =
  default VUndef (lookup_prop k (stamped this message) ≫= to_json).
Proof.
  intros Hc Hm. apply get_json_props.
  pose proof (wf_stamped this message Hc Hm) as H.
  by apply wf_obj in H as [? _].
Qed.

(** X16.  A node does not answer itself.  [send], for a [ping] or a
    [broadcast], hands to [client.send] a text that names the node as the
    sender.  When that text is ASCII it is the datagram, and when the
    datagram comes back to the node (a broadcast reaches its sender too) the
    listener drops it without a log entry, a callback or a datagram.  The id
    is compared by value: it is a string, or anything else that is neither an
    array nor an object. *)
Theorem own_request_dropped (this : UdpNode) (message : obj)
    (callback : jsarg) (r : rinfo) :
  wasSetup this = true ->
  wf_value (VObj (config this)) ->
  wf_value (VObj message) ->
  by_value (get_own (config this) "id") = true ->
  get_own message "type" = VStr "ping" \/
  get_own message "type" = VStr "broadcast" ->
  exists text port address,
    snd (send callback (this, message)) =
      [client_send text 0 (Z.of_nat (String.length text)) port address
         callback] /\
    (ascii_only text = true ->
       on_message (transmitted text 0 (Z.of_nat (String.length text))) r
         this =
       (Ok tt, this, [])).
Proof.
  intros Hs Hc Hm Hid Ht. eexists _, _, _. split.
  - rewrite send_ok; [reflexivity|done|]. by destruct Ht as [-> | ->].
  - intros Hascii. rewrite transmitted_ascii by done.
    apply (on_message_uninterested _ _ _ _ (parse_sent _ _ Hc Hm)).
    + simpl. rewrite get_sent, lookup_stamped_other by done.
      fold (get_own message "type").
      unfold get_own in Ht.
      destruct (lookup_prop "type" message) as [v|]; simpl in *;
        destruct Ht as [-> | ->]; auto; done.
    + apply isNodeOfInterest_own.
      rewrite get_sent, lookup_stamped_from by done. simpl.
      by apply by_value_json.
Qed.

(** X17.  Discovery, end to end, for one message listener on each node.
    Node [A], set up, broadcasts without a filter: the text it hands to
    [client.send] names [A] as the sender and carries its configuration.
    When [A] receives that text it drops it.  Any other node [B] that was
    set up and has not been closed, when it receives the text from an
    address that is not empty and a source port a datagram can be sent to,
    hands the message to its discovery callback; that callback returning and
    leaving [B] as it is, [B] answers with one [pong] to that address and
    port.  The text of the [pong] names [B] and carries the configuration of
    [B]; when [A] receives it, [A] hands it to its own discovery callback
    and, that callback returning, sends nothing of its own.  Each text is the
    datagram when it is ASCII. *)
Theorem discovery_exchange (A B : UdpNode) (a b : string)
    (params : option obj) (rA rB : rinfo) :
  let given k := from_option (fun p => get_own p k) VUndef params in
  wasSetup A = true -> wasSetup B = true -> isClosed B = false ->
  wf_value (VObj (config A)) -> wf_value (VObj (config B)) ->
  from_option (fun p => wf_value (VObj p)) True params ->
  truthy (given "filter") = false ->
  get_own (config A) "id" = VStr a ->
  get_own (config B) "id" = VStr b ->
  a ≠ b ->
  (0 < port rB < 65536)%Z -> address rB ≠ "" ->
  (forall m, exists t, body (onNodeCallback B) m rB B = (Ok tt, B, t)) ->
  (forall m, exists t, body (onNodeCallback A) m rA A = (Ok tt, A, t)) ->
  exists text1 port1 address1 request text2 answer tB tA,
    snd (broadcast params A) =
      [logger_debug "looking for nodes:";
       client_send text1 0 (Z.of_nat (String.length text1)) port1 address1
         (Data VUndef)] /\
    (ascii_only text1 = true ->
       transmitted text1 0 (Z.of_nat (String.length text1)) = text1) /\
    JSON_parse text1 = Some request /\
    get request "type" = Ok (VStr "broadcast") /\
    get request "from" = Ok (VStr a) /\
    get request "node" = Ok (VObj (json_props (config A))) /\
    get request "data" = Ok (default VUndef (to_json (given "data"))) /\
    on_message text1 rA A = (Ok tt, A, []) /\
    on_message text1 rB B =
      (Ok tt, B,
       [logger_debug "got BROADCAST:"; call (onNodeCallback B) request rB] ++
       tB ++
       [client_send text2 0 (Z.of_nat (String.length text2))
          (VNum (port rB)) (VStr (address rB)) (Data VUndef)]) /\
    client_accepts B (VNum (port rB)) (VStr (address rB)) = true /\
    (ascii_only text2 = true ->
       transmitted text2 0 (Z.of_nat (String.length text2)) = text2) /\
    JSON_parse text2 = Some answer /\
    get answer "type" = Ok (VStr "pong") /\
    get answer "from" = Ok (VStr b) /\
    get answer "node" = Ok (VObj (json_props (config B))) /\
    on_message text2 rA A =
      (Ok tt, A,
       [logger_debug "got PONG:"; call (onNodeCallback A) answer rA] ++ tA).
Proof.
  intros given HsA HsB HcB HcA HcfB Hparams Hfilter Ha Hb Hab HrBp HrBa
    HbodyB HbodyA.
  pose proof (broadcast_stamped A params HsA) as Hbroadcast.
  cbv zeta in Hbroadcast. fold given in Hbroadcast.
  set (message :=
         [("type", VStr "broadcast"); ("node", VObj (config A));
          ("filter", given "filter"); ("data", given "data");
          ("port", js_or (given "port")
                     (js_or (get_own (config A) "port") (VNum 3024)));
          ("address",
           js_or (given "address") (get_own (config A) "broadcastAddress"))])
    in *.
  assert (Hgiven : forall k, wf_value (given k)).
  { intros k. unfold given. destruct params as [p|]; simpl in *; [|done].
    by apply wf_get_own. }
  assert (Hm : wf_value (VObj message)).
  { apply wf_obj. split.
    - apply (bool_decide_unpack _). vm_compute. exact I.
    - unfold message. repeat apply Forall_cons_2; simpl; try done;
        repeat first [ apply wf_js_or | apply wf_get_own | apply Hgiven ];
        done. }
  pose proof (parse_sent A message HcA Hm) as Hparse1.
  assert (Htype : get_own (json_props (stamped A message)) "type" =
                  VStr "broadcast")
    by (by rewrite get_sent, lookup_stamped_other by done).
  assert (Hfrom : get_own (json_props (stamped A message)) "from" = VStr a)
    by (rewrite get_sent, lookup_stamped_from by done; by rewrite Ha).
  assert (Hfil : truthy (get_own (json_props (stamped A message)) "filter")
                 = false).
  { rewrite get_sent, lookup_stamped_other by done. simpl.
    destruct (given "filter"); simpl in *; done. }
  pose proof (wf_pong_envelope B rB HcfB) as HwfB.
  assert (Hparse2 :
            JSON_parse (JSON_stringify (VObj (pong_envelope B rB))) =
            Some (VObj (json_props (pong_envelope B rB))))
    by (apply JSON_roundtrip; [done|apply to_json_obj]).
  destruct (HbodyB (VObj (json_props (stamped A message)))) as [tB HtB].
  destruct (HbodyA (VObj (json_props (pong_envelope B rB)))) as [tA HtA].
  exists (JSON_stringify (VObj (stamped A message))),
    (get_own (stamped A message) "port"),
    (get_own (stamped A message) "address"),
    (VObj (json_props (stamped A message))),
    (JSON_stringify (VObj (pong_envelope B rB))),
    (VObj (json_props (pong_envelope B rB))), tB, tA.
  split_and!.
  - by rewrite Hbroadcast.
  - apply transmitted_ascii.
  - exact Hparse1.
  - unfold get. by rewrite Htype.
  - unfold get. by rewrite Hfrom.
  - unfold get. by rewrite get_sent, lookup_stamped_other by done.
  - unfold get. by rewrite get_sent, lookup_stamped_other by done.
  - apply (on_message_uninterested _ _ _ _ Hparse1).
    + right. unfold get. by rewrite Htype.
    + apply isNodeOfInterest_own. rewrite Hfrom, Ha. simpl.
      apply String.eqb_refl.
  - apply (on_message_answers _ _ _ _ _ HsB); [lia|done|exact Hparse1| | |done].
    + unfold get. by rewrite Htype.
    + apply isNodeOfInterest_unfiltered; [|done].
      rewrite Hfrom, Hb. simpl. by apply String.eqb_neq.
  - unfold client_accepts, valid_port. rewrite HcB. simpl.
    apply andb_true_intro. split; [|done].
    apply andb_true_intro. split; apply Z.ltb_lt; lia.
  - apply transmitted_ascii.
  - exact Hparse2.
  - done.
  - simpl. unfold get_own. simpl. fold (get_own (config B) "id").
    by rewrite Hb.
  - done.
  - by apply on_message_pong.
Qed.
End Exchange.

(** ** What the registry holds *)

Create HintDb preserves.

Section Preserves.
Context {S : Type} (I : S -> Prop).

Lemma preserves_ret {A} (a : A) : preserves I (ret a).
Proof. by intros s. Qed.

Lemma preserves_throw {A} (e : exn) : preserves I (@throw S A e).
Proof. by intros s. Qed.

Lemma preserves_lift {A} (r : result A) : preserves I (lift r).
Proof. by intros s. Qed.

Lemma preserves_read : preserves I read.
Proof. by intros s. Qed.

Lemma preserves_emit e : preserves I (emit e).
Proof. by intros s. Qed.

Lemma preserves_bind {A B} (m : M S A) (k : A -> M S B) :
  preserves I m -> (forall a, preserves I (k a)) -> preserves I (bind m k).
Proof.
  intros Hm Hk s Hs. unfold bind. specialize (Hm s Hs).
  destruct (m s) as [[[a|e] s1] t1]; simpl in *; [|done].
  specialize (Hk a s1 Hm). by destruct (k a s1) as [[r s2] t2].
Qed.

Lemma preserves_try_catch {A} (m : M S A) (h : exn -> M S A) :
  preserves I m -> (forall e, preserves I (h e)) ->
  preserves I (try_catch m h).
Proof.
  intros Hm Hh s Hs. unfold try_catch. specialize (Hm s Hs).
  destruct (m s) as [[[a|e] s1] t1]; simpl in *; [done|].
  specialize (Hh e s1 Hm). by destruct (h e s1) as [[r s2] t2].
Qed.

Lemma preserves_if {A} (b : bool) (m1 m2 : M S A) :
  preserves I m1 -> preserves I m2 -> preserves I (if b then m1 else m2).
Proof. by destruct b. Qed.

Lemma preserves_option {A B} (o : option B) (m1 : B -> M S A) (m2 : M S A) :
  (forall b, preserves I (m1 b)) -> preserves I m2 ->
  preserves I (match o with Some b => m1 b | None => m2 end).
Proof. by destruct o. Qed.
End Preserves.

#[export] Hint Resolve preserves_ret preserves_throw preserves_lift
  preserves_read preserves_emit preserves_bind preserves_try_catch
  preserves_if preserves_option : preserves.

Lemma functions_all l :
  Forall (fun a => is_function a = true) l -> map Fun (functions l) = l.
Proof.
  induction 1 as [|[v|f] l Hf _ IH]; simpl; [done|done|]. by rewrite IH.
Qed.

(** What leaves the registry alone leaves it well formed. *)
Lemma keeps_holds_functions {A} (m : M UdpNode A) :
  keeps events m -> preserves holds_functions m.
Proof. intros Hm this Hok type l. rewrite Hm. apply Hok. Qed.

Lemma on_holds_functions type callback :
  preserves holds_functions (on type callback).
Proof.
  intros this Hok. unfold on.
  destruct (String.eqb_spec type "") as [|Hne]; [done|].
  destruct (truthy_arg callback); [|done].
  destruct (is_function callback) eqn:Hf; [|done].
  unfold bind, modify, read, with_events. simpl. intros type' l'.
  destruct (events this !! type) as [l|] eqn:E; simpl.
  - rewrite E. simpl.
    intros [[<- <-]|[_ H]]%lookup_insert_Some; [|by apply Hok].
    split; [done|]. apply Forall_app. split; [by apply (Hok type)|].
    by repeat constructor.
  - destruct (inherited type); simpl.
    + rewrite E. simpl. apply Hok.
    + rewrite lookup_insert_eq. simpl. rewrite insert_insert_eq.
      intros [[<- <-]|[_ H]]%lookup_insert_Some; [|by apply Hok].
      split; [done|]. by repeat constructor.
Qed.

Lemma off_holds_functions type index :
  preserves holds_functions (off type index).
Proof.
  intros this Hok. unfold off.
  destruct (String.eqb_spec type "") as [|Hne]; [done|].
  destruct index as [i|]; simpl.
  - unfold bind, read, modify, with_events. simpl.
    destruct (events this !! type) as [l|] eqn:E; simpl; [|done].
    intros type' l'. simpl.
    intros [[<- <-]|[_ H]]%lookup_insert_Some; [|by apply Hok].
    split; [done|]. unfold splice1. apply Forall_delete. by apply (Hok type).
  - intros type' l'. unfold with_events. simpl.
    intros [_ H]%lookup_delete_Some. by apply Hok.
Qed.

Section Registry.
Variable JSON_stringify : value -> string.
Variable JSON_parse : string -> option value.
Variable body : fn -> value -> rinfo -> M UdpNode unit.
(** The callbacks act on the node through its methods, which keep the
    registry as [on] builds it. *)
Hypothesis body_holds :
  forall f message r, preserves holds_functions (body f message r).

Local Abbreviation perform := (perform JSON_stringify JSON_parse body).
Local Abbreviation perform_all :=
  (perform_all JSON_stringify JSON_parse body).
Local Abbreviation on_message := (on_message JSON_stringify JSON_parse body).

Lemma set_keeps_events config' : keeps events (set config').
Proof. unfold set. eauto 30 with keeps. Qed.

Lemma close_keeps_events callback : keeps events (close callback).
Proof. unfold close. eauto 30 with keeps. Qed.

Lemma on_message_holds_functions message r :
  preserves holds_functions (on_message message r).
Proof.
  assert (Hinvoke : forall f m r0,
            preserves holds_functions (invoke body f m r0))
    by (intros; unfold invoke; eauto with preserves).
  assert (Hpong : forall m r0,
            preserves holds_functions (pong JSON_stringify m r0))
    by (intros; apply keeps_holds_functions, pong_keeps).
  assert (Hinterest : forall m, preserves holds_functions (isNodeOfInterest m))
    by (intros; apply keeps_holds_functions, isNodeOfInterest_keeps).
  assert (forall m r0,
            preserves holds_functions (onPing JSON_stringify body m r0))
    by (intros; unfold onPing; eauto 30 with preserves).
  assert (forall m r0,
            preserves holds_functions (onBroadcast JSON_stringify body m r0))
    by (intros; unfold onBroadcast; eauto 30 with preserves).
  assert (forall m r0, preserves holds_functions (onPong body m r0))
    by (intros; unfold onPong; eauto 30 with preserves).
  assert (forall l m r0, preserves holds_functions (call_each body l m r0))
    by (intros l m r0; induction l as [|[v|f] l IH]; simpl;
        eauto with preserves).
  assert (forall ty m r0,
            preserves holds_functions (onCustomEvent body ty m r0))
    by (intros; unfold onCustomEvent; eauto 30 with preserves).
  unfold on_message. eauto 40 with preserves.
Qed.

Lemma perform_holds_functions op : preserves holds_functions (perform op).
Proof.
  destruct op;
    try (by apply on_holds_functions);
    try (by apply off_holds_functions);
    try (by apply on_message_holds_functions);
    (apply keeps_holds_functions; simpl).
  - pose proof set_keeps_events. eauto with keeps.
  - apply broadcast_keeps.
  - apply ping_keeps.
  - apply keeps_with_local, send_keeps.
  - unfold onNode. eauto with keeps.
  - apply close_keeps_events.
Qed.

Lemma perform_all_holds_functions ops :
  preserves holds_functions (perform_all ops).
Proof.
  induction ops as [|op ops IH]; simpl;
    eauto using perform_holds_functions with preserves.
Qed.

(** X18.  Whatever a node is asked to do from its creation on, by its
    owner or by callbacks that act on it through its methods, its registry
    holds nothing but functions, and nothing under the empty name: the test
    [typeof callback === 'function'] in [onCustomEvent] never turns a
    listener down.  A message of a registered custom type then calls every
    listener of its type, once and in order, as long as each of them returns
    and leaves the node as it is. *)
Theorem registry_holds_functions (uuid : string) (ops : list operation)
    (type : string) (listeners : list jsarg) (bytes : string)
    (message : value) (r : rinfo) :
  let this := snd (fst (perform_all ops (constructor uuid))) in
  events this !! type = Some listeners ->
  type ≠ "" /\
  map Fun (functions listeners) = listeners /\
  (JSON_parse bytes = Some message ->
   get message "type" = Ok (VStr type) ->
   is_builtin (VStr type) = false ->
   (forall h, h ∈ functions listeners ->
      exists th, body h message r this = (Ok tt, this, th)) ->
   exists fs,
     listeners = map Fun fs /\
     on_message bytes r this =
       (Ok tt, this,
        logger_debug ("got " +:+ type +:+ ":") ::
        concat (map (fun h => call h message r ::
                              snd (body h message r this)) fs))).
Proof.
  intros this Hl.
  assert (Hok : holds_functions this).
  { apply perform_all_holds_functions. intros type' l'. simpl.
    by rewrite lookup_empty. }
  destruct (Hok type listeners Hl) as [Hne Hall].
  pose proof (functions_all listeners Hall) as Hfs.
  split_and!; [done|done|].
  intros Hp Ht Hb Hh. exists (functions listeners). split; [done|].
  rewrite (on_message_custom _ _ _ _ _ _ _ _ Hp Ht Hb). simpl.
  rewrite Hl, call_each_returns by done. by rewrite app_nil_r.
Qed.
End Registry.

(** ** The properties at work on the two nodes *)

Lemma node_unchanged_witness :
  config (snd (fst (on_message RefJSON.stringify RefJSON.parse
                      (handlers RefJSON.stringify)
                      (RefJSON.stringify (VObj (stamped nodeA ping_B)))
                      from_nodeA (with_onNodeCallback 8%nat nodeB)))) =
    config nodeB /\
  snd (fst (broadcast RefJSON.stringify None nodeA)) = nodeA /\
  fst (snd (fst (send RefJSON.stringify (Data VUndef) (nodeA, hello)))) =
    nodeA.
Proof.
  assert (H : forall f message r s,
            config (snd (fst (handlers RefJSON.stringify f message r s))) =
            config s).
  { intros f message r s.
    destruct f as [|[|[|[|[|[|[|[|[|[|f]]]]]]]]]]; try done.
    - apply (keeps_with_local config), send_keeps.
    - unfold handlers, close, bind, read. by destruct (isClosed s). }
  destruct (node_unchanged RefJSON.stringify RefJSON.parse config
              (handlers RefJSON.stringify) (with_onNodeCallback 8%nat nodeB)
              (RefJSON.stringify (VObj (stamped nodeA ping_B))) from_nodeA
              [] None [] hello (Data VUndef) H) as (H1 & _).
  destruct (node_unchanged RefJSON.stringify RefJSON.parse config
              (handlers RefJSON.stringify) nodeA
              (RefJSON.stringify (VObj (stamped nodeA ping_B))) from_nodeA
              [] None [] hello (Data VUndef) H) as (_ & _ & H3 & _ & H5).
  split_and!; [exact H1|exact H3|exact H5].
Defined.

Lemma deliver_independent_witness :
  deliver RefJSON.stringify RefJSON.parse inert
    [("not json", from_nodeA);
     (RefJSON.stringify (VObj (stamped nodeA ping_B)), from_nodeA)] nodeB =
  (Ok tt, nodeB,
   handled RefJSON.stringify RefJSON.parse inert nodeB
     [("not json", from_nodeA);
      (RefJSON.stringify (VObj (stamped nodeA ping_B)), from_nodeA)]).
Proof.
  exact (proj1 (deliver_independent RefJSON.stringify RefJSON.parse inert
                  nodeB
                  [("not json", from_nodeA);
                   (RefJSON.stringify (VObj (stamped nodeA ping_B)),
                    from_nodeA)] []
                  (fun _ _ _ _ => eq_refl))).
Defined.

Lemma broadcast_sends_witness :
  let text :=
    RefJSON.stringify
      (VObj [("type", VStr "broadcast"); ("node", VObj (config nodeA));
             ("filter", VUndef); ("data", VUndef);
             ("port", VNum 3025); ("address", VStr "255.255.255.255");
             ("from", VStr "id-A")]) in
  snd (broadcast RefJSON.stringify (Some [("port", VNum 0)]) nodeA) =
    [logger_debug "looking for nodes:";
     client_send text 0 (Z.of_nat (String.length text)) (VNum 3025)
       (VStr "255.255.255.255") (Data VUndef)] /\
  snd (fst (broadcast RefJSON.stringify (Some [("port", VNum 0)]) nodeA)) =
    nodeA /\
  fst (fst (broadcast RefJSON.stringify (Some [("port", VNum 0)]) nodeA)) =
    Ok tt /\
  transmitted text 0 (Z.of_nat (String.length text)) = text.
Proof.
  destruct (broadcast_sends RefJSON.stringify nodeA
              (Some [("port", VNum 0)]) eq_refl) as (H1 & H2 & H3 & H4).
  split_and!; [exact H1|exact H2|exact (H3 eq_refl)|].
  apply H4. vm_compute. reflexivity.
Defined.

Lemma ping_sends_witness :
  let text :=
    RefJSON.stringify
      (VObj [("type", VStr "ping"); ("node", VObj (config nodeA));
             ("data", VNull); ("port", VNum 3024);
             ("address", VStr "10.0.0.2"); ("from", VStr "id-A")]) in
  snd (ping RefJSON.stringify [("address", VStr "10.0.0.2")] nodeA) =
    [logger_debug "sending PING";
     client_send text 0 (Z.of_nat (String.length text)) (VNum 3024)
       (VStr "10.0.0.2") (Data VUndef)] /\
  snd (fst (ping RefJSON.stringify [("address", VStr "10.0.0.2")] nodeA)) =
    nodeA /\
  fst (fst (ping RefJSON.stringify [("address", VStr "10.0.0.2")] nodeA)) =
    Ok tt /\
  transmitted text 0 (Z.of_nat (String.length text)) = text.
Proof.
  destruct (ping_sends RefJSON.stringify nodeA [("address", VStr "10.0.0.2")]
              eq_refl eq_refl) as (H1 & H2 & H3 & H4).
  split_and!; [exact H1|exact H2|exact (H3 eq_refl)|].
  apply H4. vm_compute. reflexivity.
Defined.


Lemma config_shape_witness :
  (wasSetup nodeA = false /\
   exists uuid, config nodeA = [("id", VStr uuid)]) \/
  (wasSetup nodeA = true /\
   Object_keys (config nodeA) = configured_keys /\
   truthy (get_own (config nodeA) "port") = true /\
   truthy (get_own (config nodeA) "broadcastAddress") = true /\
   get_own (config nodeA) "name" ≠ VUndef).
Proof.
  exact (config_shape nodeA (reach_set _ _ (reach_constructor "id-A"))).
Defined.

Lemma simple_name_witness :
  toSimpleName nodeA = "node1" /\
  toSimpleName (constructor "id-A") = "undefined".
Proof.
  exact (simple_name (constructor "id-A")
           [("name", VStr "node1"); ("type", VStr "r1"); ("port", VNum 3025)]
           "id-A" (reach_constructor "id-A")).
Defined.

Lemma onNode_last_wins_witness :
  exists this2,
    (onNode 1%nat ;; onNode 2%nat) nodeA = (Ok tt, this2, []) /\
    this2 = with_onNodeCallback 2%nat nodeA /\
    on_message RefJSON.stringify RefJSON.parse inert
      (RefJSON.stringify pong_B) (mk_rinfo "10.0.0.2" 3024) this2 =
      (Ok tt, this2,
       [logger_debug "got PONG:";
        call 2%nat pong_B (mk_rinfo "10.0.0.2" 3024)]).
Proof.
  exact (onNode_last_wins RefJSON.stringify RefJSON.parse nodeA 1%nat 2%nat
           (RefJSON.stringify pong_B) pong_B (mk_rinfo "10.0.0.2" 3024)
           eq_refl eq_refl).
Defined.

Lemma off_unregistered_witness :
  off "hello" None nodeA = (Ok tt, nodeA, []) /\
  off "hello" None (with_events (delete "hello") listening) =
    (Ok tt, with_events (delete "hello") listening, []).
Proof.
  assert (Hne : "hello" ≠ "") by discriminate.
  split.
  - exact (proj1 (off_unregistered nodeA "hello" Hne) eq_refl).
  - exact (proj2 (off_unregistered listening "hello" Hne) _ eq_refl).
Defined.

Lemma off_index_edges_witness :
  off "hello" (Some 2%Z) listening = (Ok tt, listening, []) /\
  off "hello" (Some (-1)%Z) listening =
    (Ok tt, with_events (<["hello" := [Fun 1%nat]]>) listening, []) /\
  off "hello" (Some (-3)%Z) listening =
    (Ok tt, with_events (<["hello" := [Fun 2%nat]]>) listening, []).
Proof.
  assert (Hne : "hello" ≠ "") by discriminate.
  split_and!.
  - apply (proj1 (off_index_edges listening "hello" 2 [Fun 1%nat; Fun 2%nat]
                    Hne eq_refl)).
    simpl. lia.
  - apply (proj1 (proj2 (off_index_edges listening "hello" (-1)
                           [Fun 1%nat; Fun 2%nat] Hne eq_refl))).
    simpl. lia.
  - apply (proj2 (proj2 (off_index_edges listening "hello" (-3)
                           [Fun 1%nat; Fun 2%nat] Hne eq_refl))).
    simpl. lia.
Defined.

Lemma on_off_last_witness :
  off "hello" (Some (-1)%Z) (snd (fst (on "hello" (Fun 3%nat) listening))) =
  (Ok tt, with_events (<["hello" := [Fun 1%nat; Fun 2%nat]]>) listening, []).
Proof.
  apply (on_off_last listening "hello" 3%nat);
    [discriminate|reflexivity|reflexivity].
Defined.

Lemma interest_by_rules_witness :
  isNodeOfInterest (VObj (json_props (stamped nodeA broadcast_r1))) nodeB_r2 =
    (Ok false, nodeB_r2, []) /\
  isNodeOfInterest (VObj (json_props (stamped nodeA ping_B))) nodeB_r2 =
    (Ok true, nodeB_r2, []) /\
  isNodeOfInterest (VObj (json_props (stamped nodeB broadcast_r1))) nodeB_r2 =
    (Ok false, nodeB_r2, []).
Proof.
  split_and!.
  - exact (interest_by_rules (json_props (stamped nodeA broadcast_r1))
             nodeB_r2 (Some ["r1"]) (Some "r2") eq_refl eq_refl).
  - exact (interest_by_rules (json_props (stamped nodeA ping_B))
             nodeB_r2 None (Some "r2") eq_refl eq_refl).
  - exact (interest_by_rules (json_props (stamped nodeB broadcast_r1))
             nodeB_r2 (Some ["r1"]) (Some "r2") eq_refl eq_refl).
Defined.

Lemma builtin_ignores_registry_witness :
  exists t,
    on_message RefJSON.stringify RefJSON.parse inert
      (RefJSON.stringify (VObj (stamped nodeA ping_B))) from_nodeA nodeB =
      (Ok tt, nodeB, t) /\
    on_message RefJSON.stringify RefJSON.parse inert
      (RefJSON.stringify (VObj (stamped nodeA ping_B))) from_nodeA
      (with_events (<["ping" := [Fun 7%nat]]>) nodeB) =
      (Ok tt, with_events (<["ping" := [Fun 7%nat]]>) nodeB, t).
Proof.
  exact (builtin_ignores_registry RefJSON.stringify RefJSON.parse
           (<["ping" := [Fun 7%nat]]>) nodeB
           (RefJSON.stringify (VObj (stamped nodeA ping_B)))
           (VObj (json_props (stamped nodeA ping_B))) (VStr "ping") from_nodeA
           eq_refl eq_refl eq_refl).
Defined.

Lemma own_request_dropped_witness :
  exists text port address,
    snd (send RefJSON.stringify (Data VUndef) (nodeA, ping_B)) =
      [client_send text 0 (Z.of_nat (String.length text)) port address
         (Data VUndef)] /\
    (ascii_only text = true ->
       on_message RefJSON.stringify RefJSON.parse
         (handlers RefJSON.stringify)
         (transmitted text 0 (Z.of_nat (String.length text))) from_nodeA
         nodeA =
       (Ok tt, nodeA, [])).
Proof.
  exact (own_request_dropped RefJSON.stringify RefJSON.parse
           (handlers RefJSON.stringify)
           RefJSON_parse_stringify nodeA ping_B (Data VUndef) from_nodeA
           eq_refl wf_config_nodeA wf_ping_B eq_refl (or_introl eq_refl)).
Defined.

Lemma discovery_exchange_witness :
  exists text1 port1 address1 request text2 answer tB tA,
    snd (broadcast RefJSON.stringify None nodeA) =
      [logger_debug "looking for nodes:";
       client_send text1 0 (Z.of_nat (String.length text1)) port1 address1
         (Data VUndef)] /\
    (ascii_only text1 = true ->
       transmitted text1 0 (Z.of_nat (String.length text1)) = text1) /\
    RefJSON.parse text1 = Some request /\
    get request "type" = Ok (VStr "broadcast") /\
    get request "from" = Ok (VStr "id-A") /\
    get request "node" = Ok (VObj (json_props (config nodeA))) /\
    get request "data" = Ok VUndef /\
    on_message RefJSON.stringify RefJSON.parse (handlers RefJSON.stringify)
      text1 (mk_rinfo "10.0.0.2" 3024) nodeA = (Ok tt, nodeA, []) /\
    on_message RefJSON.stringify RefJSON.parse (handlers RefJSON.stringify)
      text1 from_nodeA nodeB =
      (Ok tt, nodeB,
       [logger_debug "got BROADCAST:";
        call (onNodeCallback nodeB) request from_nodeA] ++ tB ++
       [client_send text2 0 (Z.of_nat (String.length text2))
          (VNum 3025) (VStr "10.0.0.1") (Data VUndef)]) /\
    client_accepts nodeB (VNum 3025) (VStr "10.0.0.1") = true /\
    (ascii_only text2 = true ->
       transmitted text2 0 (Z.of_nat (String.length text2)) = text2) /\
    RefJSON.parse text2 = Some answer /\
    get answer "type" = Ok (VStr "pong") /\
    get answer "from" = Ok (VStr "id-B") /\
    get answer "node" = Ok (VObj (json_props (config nodeB))) /\
    on_message RefJSON.stringify RefJSON.parse (handlers RefJSON.stringify)
      text2 (mk_rinfo "10.0.0.2" 3024) nodeA =
      (Ok tt, nodeA,
       [logger_debug "got PONG:";
        call (onNodeCallback nodeA) answer (mk_rinfo "10.0.0.2" 3024)] ++ tA).
Proof.
  assert (Hab : "id-A" ≠ "id-B") by discriminate.
  assert (Hport : (0 < port from_nodeA < 65536)%Z) by (simpl; lia).
  assert (Haddr : address from_nodeA ≠ "") by discriminate.
  exact (discovery_exchange RefJSON.stringify RefJSON.parse
           (handlers RefJSON.stringify)
           RefJSON_parse_stringify nodeA nodeB "id-A" "id-B" None
           (mk_rinfo "10.0.0.2" 3024) from_nodeA
           eq_refl eq_refl eq_refl wf_config_nodeA wf_config_nodeB I eq_refl
           eq_refl eq_refl Hab Hport Haddr
           (fun m => ex_intro _ [] eq_refl)
           (fun m => ex_intro _ [] eq_refl)).
Defined.

Lemma registry_holds_functions_witness :
  "hello" ≠ "" /\
  map Fun (functions [Fun 1%nat; Fun 2%nat]) = [Fun 1%nat; Fun 2%nat] /\
  exists fs,
    [Fun 1%nat; Fun 2%nat] = map Fun fs /\
    on_message RefJSON.stringify RefJSON.parse inert
      (RefJSON.stringify hello_A) from_nodeA
      (snd (fst (perform_all RefJSON.stringify RefJSON.parse inert
                   [op_on "hello" (Fun 1%nat); op_on "hello" (Data VNull);
                    op_on "toString" (Fun 3%nat); op_on "hello" (Fun 2%nat)]
                   (constructor "id-B")))) =
      (Ok tt,
       snd (fst (perform_all RefJSON.stringify RefJSON.parse inert
                   [op_on "hello" (Fun 1%nat); op_on "hello" (Data VNull);
                    op_on "toString" (Fun 3%nat); op_on "hello" (Fun 2%nat)]
                   (constructor "id-B"))),
       logger_debug "got hello:" ::
       concat (map (fun h => [call h hello_A from_nodeA]) fs)).
Proof.
  destruct (registry_holds_functions RefJSON.stringify RefJSON.parse inert
              (fun _ _ _ _ H => H) "id-B"
              [op_on "hello" (Fun 1%nat); op_on "hello" (Data VNull);
               op_on "toString" (Fun 3%nat); op_on "hello" (Fun 2%nat)]
              "hello" [Fun 1%nat; Fun 2%nat] (RefJSON.stringify hello_A)
              hello_A from_nodeA eq_refl) as (H1 & H2 & H3).
  split_and!; [exact H1|exact H2|].
  apply (H3 eq_refl eq_refl eq_refl). intros h _. by exists [].
Defined.
